(** * Full Text Search how-to (modules/howtos/examples/search.py)

    The example module is glue code: [Search.__call__] connects to a
    cluster and then walks through a series of tagged snippets, each of
    which hands literal arguments to the couchbase client library.  The
    library and the Python runtime are outside the module, so they are
    modelled as an arbitrary environment that answers each call, either
    with an object or by raising.  The module's own code is embedded as a
    program in a state-and-exception monad that records every call it
    makes, in order, with the answer it got.

    The file as it stands leaves one parenthesis open, on line 64.  The
    program [Search.__call__] below embeds the file with that call
    closed ([closed_text]); what the file does as written ([source_text])
    is [as_written], which compiles the text first.  Theorems about [run]
    are about the closed reading; where a statement is about the file as
    written it says so. *)

From Stdlib Require Import List String Ascii Bool Arith ZArith Lia.
Import ListNotations.
Open Scope string_scope.
Open Scope list_scope.
#[local] Set Warnings "-register-all".


(** ** Python values the module builds *)

(** Objects handed out by the library or the runtime are opaque to the
    module: it never looks inside one, it only passes them on or calls
    into them.  They are identified by a number. *)
Definition obj := nat.

(** Argument values.  Literals and the library's value objects (queries,
    options, sort and facet descriptions, mutation state) are written out
    as the construction calls the source shows. *)
Inductive pyval : Type :=
| VInt (n : Z)                                   (* 3 *)
| VStr (s : string)                              (* "index" *)
| VList (xs : list pyval)                        (* [a, b] *)
| VDict (kvs : list (string * pyval))            (* {} , dict(k=v) *)
| VObj (o : obj)                                 (* a variable bound to a runtime object *)
| VMember (cls name : string)                    (* HighlightStyle.HTML *)
| VNew (cls : string) (args : list pyval) (kwargs : list (string * pyval))
                                                 (* Cls(a, ..., k=v, ...) *)
| VChain (recv : pyval) (meth : string) (args : list pyval).
                                                 (* Cls().meth(a, ...) *)

(** Exceptions carry their class and its base classes; [except C] catches
    an instance of [C] or of a subclass. *)
Record exn : Type := { exn_class : string; exn_bases : list string }.

Definition isinstance (e : exn) (cls : string) : bool :=
  String.eqb (exn_class e) cls || existsb (String.eqb cls) (exn_bases e).

Inductive outcome (A : Type) : Type :=
| Ok (a : A)
| Raise (e : exn).
Arguments Ok {A} a.
Arguments Raise {A} e.

(** ** Calls that leave the module *)

Inductive callee : Type :=
| StaticCall (cls meth : string)      (* Cls.meth(...) on an imported class *)
| Method (recv : obj) (meth : string) (* recv.meth(...) *)
| GetAttr (recv : obj) (name : string)(* recv.name *)
| Iterate (it : obj)                  (* for x in it *)
| Builtin (name : string).            (* print, logging.error, ... *)

Inductive reply : Type :=
| Returned (v : obj)
| Yielded (xs : list obj)
| Raised (e : exn).

Record event : Type :=
  { ev_target : callee; ev_args : list pyval; ev_reply : reply }.

Definition trace := list event.

(** The environment: the client library together with the Python runtime.
    [respond] answers a call, [yield] drives an iterable to exhaustion and
    gives the items it produced.  Both may raise, and both may depend on
    and change the state [W] of the outside world.  An iterable is taken
    whole: it gives all its items, or raises, before the first pass
    through the body of the loop; one that fails after some items, or
    never ends, is outside the model. *)
Record Library (W : Type) : Type :=
  { respond : callee -> list pyval -> W -> outcome obj * W;
    yield : obj -> W -> outcome (list obj) * W }.
Arguments respond {W} l _ _ _.
Arguments yield {W} l _ _.

(** ** The monad of the embedding *)

Section Runtime.
Context {W : Type} (lib : Library W).

Definition state : Type := W * trace.
Definition M (A : Type) : Type := state -> outcome A * state.

(** The state a run starts from: nothing called yet. *)
Definition start (w : W) : state := @pair W trace w [].

Definition ret {A} (a : A) : M A := fun s => (Ok a, s).

Definition bind {A B} (m : M A) (k : A -> M B) : M B :=
  fun s =>
    match m s with
    | (Ok a, s') => k a s'
    | (Raise e, s') => (Raise e, s')
    end.

Definition call (c : callee) (args : list pyval) : M obj :=
  fun s =>
    match respond lib c args (fst s) with
    | (Ok v, w') =>
        (Ok v, (w', snd s ++ [{| ev_target := c; ev_args := args; ev_reply := Returned v |}]))
    | (Raise e, w') =>
        (Raise e, (w', snd s ++ [{| ev_target := c; ev_args := args; ev_reply := Raised e |}]))
    end.

Definition iterate (it : obj) : M (list obj) :=
  fun s =>
    match yield lib it (fst s) with
    | (Ok xs, w') =>
        (Ok xs, (w', snd s ++ [{| ev_target := Iterate it; ev_args := []; ev_reply := Yielded xs |}]))
    | (Raise e, w') =>
        (Raise e, (w', snd s ++ [{| ev_target := Iterate it; ev_args := []; ev_reply := Raised e |}]))
    end.

Fixpoint for_each (xs : list obj) (body : obj -> M unit) : M unit :=
  match xs with
  | [] => ret tt
  | x :: rest => bind (body x) (fun _ => for_each rest body)
  end.

(** [for x in it: body] *)
Definition for_in (it : obj) (body : obj -> M unit) : M unit :=
  bind (iterate it) (fun xs => for_each xs body).

(** [try: body  except cls: handler] *)
Definition try_except {A} (body : M A) (cls : string) (handler : M A) : M A :=
  fun s =>
    match body s with
    | (Ok a, s') => (Ok a, s')
    | (Raise e, s') => if isinstance e cls then handler s' else (Raise e, s')
    end.

Definition static (cls meth : string) (args : list pyval) : M obj :=
  call (StaticCall cls meth) args.
Definition method (recv : obj) (meth : string) (args : list pyval) : M obj :=
  call (Method recv meth) args.
Definition getattr (recv : obj) (name : string) : M obj :=
  call (GetAttr recv name) [].
Definition builtin (name : string) (args : list pyval) : M obj :=
  call (Builtin name) args.
End Runtime.

Declare Scope py_scope.
Delimit Scope py_scope with py.
Notation "x <- m ;; k" := (bind m (fun x => k))
  (at level 61, m at next level, right associativity) : py_scope.
Notation "m ;;; k" := (bind m (fun _ => k))
  (at level 61, right associativity) : py_scope.

(** ** The module *)

(** The statements at the top level of the file: the opening text (lines
    1-27), the imports (29-35), the class (39-323) and the closing text
    (324-391). *)
Inductive statement : Type :=
| Docstring
| FromImport (module : string) (names : list string)
| Import (module : string)
| ClassDef (name : string) (methods : list string).

Definition module_body : list statement :=
  [ Docstring;
    FromImport "couchbase.cluster" ["Cluster"; "ClusterOptions"; "PasswordAuthenticator"];
    FromImport "couchbase.exceptions" ["CouchbaseException"];
    FromImport "couchbase.search"
      ["QueryStringQuery"; "SearchQuery"; "SearchOptions"; "PrefixQuery";
       "HighlightStyle"; "SortField"; "SortScore"; "TermFacet"];
    FromImport "couchbase.mutation_state" ["MutationState"];
    Import "logging";
    ClassDef "Search" ["__call__"];
    Docstring ].

(** What the module imports, by module of origin; [traceback] is imported
    inside the method, at line 59. *)
Definition imports : list (string * list string) :=
  flat_map (fun st => match st with
                      | FromImport m names => [(m, names)]
                      | Import m => [(m, [])]
                      | _ => []
                      end) module_body
  ++ [("traceback", [])].

(** What the module defines itself. *)
Definition definitions : list (string * list string) :=
  flat_map (fun st => match st with
                      | ClassDef name methods => [(name, methods)]
                      | _ => []
                      end) module_body.

(** Value objects of the client library, as the source constructs them.
    A construction is written out as a value, with its class and its
    arguments; it is not a call of the model, and what a constructor of
    the library does or raises is outside it. *)
Definition PasswordAuthenticator (user password : string) : pyval :=
  VNew "PasswordAuthenticator" [VStr user; VStr password] [].
Definition ClusterOptions (authenticator : pyval) : pyval :=
  VNew "ClusterOptions" [authenticator] [].
Definition QueryStringQuery (query : string) : pyval :=
  VNew "QueryStringQuery" [VStr query] [].
Definition PrefixQuery (prefix : string) : pyval :=
  VNew "PrefixQuery" [VStr prefix] [].
Definition SearchOptions (kwargs : list (string * pyval)) : pyval :=
  VNew "SearchOptions" [] kwargs.
Definition SortScore : pyval := VNew "SortScore" [] [].
Definition SortField (field : string) : pyval := VNew "SortField" [VStr field] [].
Definition TermFacet (field : string) (limit : Z) : pyval :=
  VNew "TermFacet" [VStr field; VInt limit] [].
Definition MutationState : pyval := VNew "MutationState" [] [].
Definition HighlightStyle_HTML : pyval := VMember "HighlightStyle" "HTML".

Module Search.
Section Body.
Context {W : Type} (lib : Library W).
Local Open Scope py_scope.

Local Abbreviation method := (method lib).
Local Abbreviation static := (static lib).
Local Abbreviation getattr := (getattr lib).
Local Abbreviation builtin := (builtin lib).
Local Abbreviation for_in := (for_in lib).

(** Lines 58-69, tag [simple], read with the [print] call of line 64
    closed.  The source leaves that parenthesis open, so as written lines
    64-68 form no statement ([as_written] below); with it closed both
    [print] calls sit in the loop body and line 67 is the [except] clause
    of the [try] of line 60.  The [import traceback] of line 59 calls
    nothing; [+] on a string is [str.__add__]. *)
Definition simple (cluster : obj) : M unit :=
  try_except
    (result <- method cluster "search_query" [VStr "index"; QueryStringQuery "query"] ;;
     rows <- method result "rows" [] ;;
     for_in rows (fun row =>
       found <- builtin "str.format" [VStr "Found row {}"; VObj row] ;;
       builtin "print" [VObj found] ;;;
       metadata <- method result "metadata" [] ;;
       metrics <- method metadata "metrics" [] ;;
       total_rows <- method metrics "total_rows" [] ;;
       reported <- builtin "str.__add__" [VStr "Reported total rows: "; VObj total_rows] ;;
       builtin "print" [VObj reported] ;;;
       ret tt))
    "CouchbaseException"
    (formatted <- builtin "traceback.format_exc" [] ;;
     builtin "logging.error" [VObj formatted] ;;;
     ret tt).

(** Lines 148-157, tag [squery]. *)
Definition squery (cluster : obj) : M unit :=
  result <- method cluster "search_query"
              [VStr "my-index-name"; PrefixQuery "airports-";
               SearchOptions [("fields", VList [VStr "field-1"])]] ;;
  rows <- method result "rows" [] ;;
  for_in rows (fun row =>
    score <- method row "score" [] ;;
    line <- builtin "str.format" [VStr "Score: {}"; VObj score] ;;
    builtin "print" [VObj line] ;;;
    id <- method row "id" [] ;;
    line <- builtin "str.format" [VStr "Document Id: {}"; VObj id] ;;
    builtin "print" [VObj line] ;;;
    fields <- method row "fields" [] ;;
    builtin "print" [VObj fields] ;;;
    ret tt).

(** Lines 167-173, tag [limit]. *)
Definition limit (cluster : obj) : M unit :=
  method cluster "search_query"
    [VStr "index"; QueryStringQuery "query";
     SearchOptions [("skip", VInt 3); ("limit", VInt 4)]] ;;;
  ret tt.

(** Lines 193-202, tag [ryow]. *)
Definition ryow (cluster collection : obj) : M unit :=
  mutation_result <- method collection "upsert" [VStr "key"; VDict []] ;;
  let mutation_state := VChain MutationState "add_results" [VObj mutation_result] in
  method cluster "search_query"
    [VStr "index"; QueryStringQuery "query";
     VChain (SearchOptions []) "consistent_with" [mutation_state]] ;;;
  ret tt.

(** Lines 217-223, tag [highlight]. *)
Definition highlight (cluster : obj) : M unit :=
  method cluster "search_query"
    [VStr "index"; QueryStringQuery "query";
     SearchOptions [("highlight_style", HighlightStyle_HTML);
                    ("highlight_fields", VList [VStr "field1"; VStr "field2"])]] ;;;
  ret tt.

(** Lines 236-241, tag [sort]. *)
Definition sort (cluster : obj) : M unit :=
  method cluster "search_query"
    [VStr "index"; QueryStringQuery "query";
     SearchOptions [("sort", VList [SortScore; SortField "field"])]] ;;;
  ret tt.

(** Lines 255-262, tag [facets]. *)
Definition facets (cluster : obj) : M unit :=
  method cluster "search_query"
    [VStr "index"; QueryStringQuery "query";
     SearchOptions [("facets", VDict [("categories", TermFacet "category" 5)])]] ;;;
  ret tt.

(** Lines 274-280, tag [fields]; [result] stays bound for what follows. *)
Definition fields (cluster : obj) : M obj :=
  method cluster "search_query"
    [VStr "index"; QueryStringQuery "query";
     SearchOptions [("fields", VList [VStr "field1"; VStr "field2"])]].

(** Lines 307-311, tag [simpleresult]. *)
Definition simpleresult (result : obj) : M unit :=
  hits <- method result "hits" [] ;;
  for_in hits (fun hit =>
    document_id <- getattr hit "id" ;;
    score <- getattr hit "score" ;;
    ret tt).

(** Lines 319-323, tag [simplefacetresult]. *)
Definition simplefacetresult (result : obj) : M unit :=
  facets <- method result "facets" [] ;;
  for_in facets (fun facet =>
    name <- getattr facet "name" ;;
    total <- getattr facet "total" ;;
    ret tt).

(** Lines 42-323: the body of the static method; lines 43-45 connect and
    resolve the bucket and its default collection, then the snippets
    follow.  The text between the snippets stands there as string
    literals and comments, which call nothing. *)
Definition __call__ : M unit :=
  cluster <- static "Cluster" "connect"
               [VStr "localhost";
                ClusterOptions (PasswordAuthenticator "Administrator" "password")] ;;
  bucket <- method cluster "bucket" [VStr "travel-sample"] ;;
  collection <- method bucket "default_collection" [] ;;
  simple cluster ;;;
  squery cluster ;;;
  limit cluster ;;;
  ryow cluster collection ;;;
  highlight cluster ;;;
  sort cluster ;;;
  facets cluster ;;;
  result <- fields cluster ;;
  simpleresult result ;;;
  simplefacetresult result.
End Body.
End Search.

(** One run of the module, read with line 64 closed, against a library,
    from a given state of the outside world: how it ended and everything
    it called. *)
Definition run {W} (lib : Library W) (w : W) : outcome unit * trace :=
  let r := Search.__call__ lib (start w) in (fst r, snd (snd r)).

(** * Libraries to run the module against *)

(** ** A library in which nothing goes wrong

    Every call returns a fresh object and every iterable yields two fresh
    items.  It serves to exhibit complete runs. *)
Definition fresh_lib : Library nat :=
  {| respond := fun _ _ w => (Ok w, S w);
     yield := fun _ w => (Ok [w; S w], S (S w)) |}.

(** A library whose first kind of search request fails: a request without
    options raises the [IndexNotFoundException] of the text at line 77, a
    subclass of [CouchbaseException]. *)
Definition index_not_found : exn :=
  {| exn_class := "IndexNotFoundException";
     exn_bases := ["CouchbaseException"; "Exception"] |}.

Definition failing_lib : Library nat :=
  {| respond := fun c args w =>
       match c with
       | Method _ m =>
           if (m =? "search_query") && Nat.eqb (List.length args) 2
           then (Raise index_not_found, w)
           else (Ok w, S w)
       | _ => (Ok w, S w)
       end;
     yield := fun _ w => (Ok [w; S w], S (S w)) |}.

(** A library in which [total_rows] is a number: adding it to a string
    raises [TypeError], which is no [CouchbaseException]. *)
Definition type_error : exn :=
  {| exn_class := "TypeError"; exn_bases := ["Exception"] |}.

Definition numeric_lib : Library nat :=
  {| respond := fun c _ w =>
       match c with
       | Builtin name => if name =? "str.__add__" then (Raise type_error, w) else (Ok w, S w)
       | _ => (Ok w, S w)
       end;
     yield := fun _ w => (Ok [w; S w], S (S w)) |}.

Example complete_run_returns : fst (run fresh_lib 0) = Ok tt.
Proof. reflexivity. Qed.

Example complete_run_makes_58_calls : List.length (snd (run fresh_lib 0)) = 58.
Proof. reflexivity. Qed.

Example failed_search_is_survived : fst (run failing_lib 0) = Ok tt.
Proof. reflexivity. Qed.

Example type_error_ends_the_run :
  fst (run numeric_lib 0) = Raise type_error /\
  List.length (snd (run numeric_lib 0)) = 12.
Proof. split; reflexivity. Qed.

(** * The text of the file

    Some claims are about the file as text rather than about what the
    module does when it runs; the text is kept verbatim. *)

Definition dq : string := String (ascii_of_nat 34) EmptyString.
Definition quoted (s : string) : string := (dq ++ s ++ dq)%string.
Definition triple_quote : string := (dq ++ dq ++ dq)%string.
Definition backslash : ascii := ascii_of_nat 92.

(** Lines 59-68, the [simple] snippet between its tags. *)
Definition simple_text : list string :=
  [ "        import traceback";
    "        try:";
    ("            result = cluster.search_query(" ++ quoted "index" ++ ",")%string;
    ("                                          QueryStringQuery(" ++ quoted "query" ++ "))")%string;
    "            for row in result.rows():";
    ("                print(" ++ quoted "Found row {}" ++ ".format(row)")%string;
    ("                print(" ++ quoted "Reported total rows: ")%string;
    "                      + result.metadata().metrics().total_rows())";
    "        except CouchbaseException:";
    "            logging.error(traceback.format_exc())" ].

(** Lines 282-292, the reactive fragment. *)
Definition reactive_fragment : list string :=
  [ "# TODO: document async APIs?";
    "# #tag::simplereactive[]";
    "#   Mono<ReactiveSearchResult> result = cluster";
    "#     .reactive()";
    ("#     .searchQuery(" ++ quoted "index" ++ ", SearchQuery.queryString(" ++ quoted "query" ++ "));")%string;
    "#";
    "#   result";
    "#     .flatMapMany(ReactiveSearchResult::rows)";
    ("#     .subscribe(row -> System.out.println(" ++ quoted "Found row: " ++ " + row));")%string;
    "#   // #end::simplereactive[]";
    "# }" ].

(** Lines 324-391, the text that closes the file. *)
Definition closing_text : list string :=
  [ triple_quote;
    "----";
    "The `SearchRow` contains the following methods:";
    EmptyString;
    ".SearchRow";
    ("[options=" ++ quoted "header" ++ "]")%string;
    "|====";
    "| `index()` | The name of the FTS index that gave this result.";
    "                                                       | `id()` | The id of the matching document.";
    "                                                                                         | `score()` | The score of this hit.";
    "                                                                                                                         | `explanation()` | If enabled provides an explanation in JSON form.";
    "                                                                                                                                                                                        | `locations()` | The individual locations of the hits as `SearchRowLocations`.";
    "                                                                                                                                                                                                                                                  | `fragments()` | The fragments for each field that was requested as highlighted.";
    "| `fieldsAs(final Class<T> target)` | Access to the returned fields, decoded via a `Class` type.";
    "| `fieldsAs(final TypeRef<T> target)` | Access to the returned fields, decoded via a `TypeRef` type.";
    "|====";
    EmptyString;
    "Note that the `SearchMetaData` also contains potential `errors`, because the SDK will keep streaming results if the initial response came back successfully.";
    "This makes sure that even with partial data usually search results are useable,";
    "so if you absolutely need to check if all partitions are present in the result double check the error";
    "(and not only catch an exception on the query itself).";
    EmptyString;
    EmptyString;
    "=== Custom JSON Serializer";
    EmptyString;
    "As with all JSON APIs, it is possible to customize the JSON serializer.";
    "You can plug in your own library (like GSON) or custom configure mappings on your own Jackson serializer.";
    "This in turn makes it possible to serialize rows into POJOs or other structures that your application defines, and which the SDK has no idea about.";
    EmptyString;
    "Please see the documentation on transcoding and serialization for more information.";
    EmptyString;
    "== Reactive And Async APIs";
    EmptyString;
    "In addition to the blocking API on `Cluster`, the SDK provides reactive and async APIs on `ReactiveCluster` or `AsyncCluster` respectively.";
    "If you are in doubt of which API to use, we recommend looking at the reactive first:";
    "    it builds on top of reactor, a powerful library that allows you to compose reactive computations and deal with error handling and other related concerns (like retry) in an elegant manner.";
    "The async API on the other hand exposes a `CompletableFuture` and is more meant for lower level integration into other libraries or if you need the last drop of performance.";
    EmptyString;
    "There is another reason for using the reactive API here: streaming large results with backpressure from the application side.";
    "Both the blocking and async APIs have no means of signalling backpressure in a good way, so if you need it the reactive API is your best option.";
    EmptyString;
    "[TIP]";
    ".Advanced Reactive Concepts Ahead";
    "====";
    "Please see recent guides to reactive programming for more information on the basics -- this guide dives straight into their impact on querying search.";
    "====";
    EmptyString;
    "A simple reactive query is similar to the blocking one:";
    EmptyString;
    "    [source,java]";
    "    ----";
    "    include::example$search.py[tag=simplereactive,indent=0]";
    "----";
    EmptyString;
    "This search query will stream all rows as they become available form the server.";
    "    If you want to manually control the data flow (which is important if you are streaming a lot of rows which could cause a potential out of memory situation) you can do this by using explicit `request()` calls.";
    EmptyString;
    "                                                                                                                                                                                                              [source,java]";
    "                                                                                                                                                                                                              ----";
    "include::example$search.py[tag=backpressure,indent=0]";
    "----";
    EmptyString;
    "In this example we initially request a batch size of 10 rows (so streaming can begin).";
    "Then as each row gets streamed it is written to a `process()` method which does whatever it needs to do to process.";
    "    Then a counter is decremented, and once all of the 10 outstanding rows are processed another batch is loaded.";
    "    Please note that with reactive code, if your `process()` method equivalent is blocking, you *must* move it onto another scheduler so that the I/O threads are not stalled.";
    "We always recommend not blocking in the first place in reactive code.";
    triple_quote ].

(** ** Brackets and logical lines

    Python's lexical rule for line joining: inside parentheses, square
    brackets or braces a line end does not end the statement.  Strings are
    skipped up to their closing quote and a [#] outside a string starts a
    comment that runs to the end of the line.  (The lines scanned hold no
    backslash and no string that spans lines.) *)

Definition is_opener (c : ascii) : bool :=
  Ascii.eqb c "(" || Ascii.eqb c "[" || Ascii.eqb c "{".
Definition is_closer (c : ascii) : bool :=
  Ascii.eqb c ")" || Ascii.eqb c "]" || Ascii.eqb c "}".
Definition is_quote (c : ascii) : bool :=
  Ascii.eqb c (ascii_of_nat 34) || Ascii.eqb c "'".

(** The bracket depth at the end of a line that starts at depth [depth]. *)
Fixpoint scan_line (s : string) (quote : option ascii) (depth : nat) : nat :=
  match s with
  | EmptyString => depth
  | String c rest =>
      match quote with
      | Some q => scan_line rest (if Ascii.eqb c q then None else quote) depth
      | None =>
          if is_quote c then scan_line rest (Some c) depth
          else if Ascii.eqb c "#" then depth
          else if is_opener c then scan_line rest None (S depth)
          else if is_closer c then scan_line rest None (pred depth)
          else scan_line rest None depth
      end
  end.

(** The bracket depth at which each line of a text starts, and the depth
    after its last line. *)
Fixpoint depths (text : list string) (depth : nat) : list nat :=
  depth ::
  match text with
  | [] => []
  | l :: rest => depths rest (scan_line l None depth)
  end.

(** The logical lines of a text, each with the physical lines joined into
    it, and the physical lines left over in a bracket that never closes. *)
Fixpoint logical_lines (text pending : list string) (depth : nat)
  : list (list string) * list string :=
  match text with
  | [] => ([], pending)
  | l :: rest =>
      let d := scan_line l None depth in
      if Nat.eqb d 0
      then let r := logical_lines rest [] 0 in ((pending ++ [l]) :: fst r, snd r)
      else logical_lines rest (pending ++ [l]) d
  end.

Fixpoint lstrip (s : string) : string :=
  match s with
  | String c rest => if Ascii.eqb c " " then lstrip rest else s
  | EmptyString => s
  end.

(** The logical line opens with the given keyword. *)
Definition opens_with (keyword : string) (line : list string) : bool :=
  match line with
  | first :: _ => String.prefix keyword (lstrip first)
  | [] => false
  end.

Definition is_comment (l : string) : bool := String.prefix "#" (lstrip l).

Fixpoint contains (needle hay : string) : bool :=
  String.prefix needle hay ||
  match hay with
  | EmptyString => false
  | String _ rest => contains needle rest
  end.

(** Replaces line [n] (counted from [first]) of a text. *)
Fixpoint with_line (text : list string) (first n : nat) (l : string) : list string :=
  match text with
  | [] => []
  | x :: rest =>
      if Nat.eqb first n then l :: rest else x :: with_line rest (S first) n l
  end.

(** Line 64 as the embedding reads it, with the call closed. *)
Definition line_64_closed : string :=
  ("                print(" ++ quoted "Found row {}" ++ ".format(row))")%string.

(** The lines of a text between its first and its last. *)
Definition inner (text : list string) : list string := removelast (tl text).

(** ** The whole file

    All 391 lines of the file, as they stand.  The snippets kept above
    are lines 59-68, 282-292 and 324-391 of it. *)
Definition source_text : list string :=
  [ triple_quote;
    "= Full Text Search using the SDK";
    ":navtitle: Full Text Search using the SDK";
    ":page-topic-type: howto";
    ":page-aliases: search-query";
    ":lang: Python";
    ":version: 3.0.0";
    ":example-source: 3.0@python-sdk:howtos:example$search.py";
    ":example-source-lang: Python";
    EmptyString;
    "[abstract]";
    "You can use the Full Text Search service (FTS) to create queryable full-text indexes in Couchbase Server.";
    EmptyString;
    EmptyString;
    EmptyString;
    "Full Text Search or FTS allows you to create, manage, and query full text indexes on JSON documents stored in Couchbase buckets.";
    "It uses natural language processing for querying documents, provides relevance scoring on the results of your queries, and has fast indexes for querying a wide range of possible text searches.";
    "Some of the supported query types include simple queries like Match and Term queries; range queries like Date Range and Numeric Range; and compound queries for conjunctions, disjunctions, and/or boolean queries.";
    "The .NET SDK exposes an API for performing FTS queries which abstracts some of the complexity of using the underlying REST API.";
    EmptyString;
    "// As of Couchbase Server 6.5, FTS...";
    EmptyString;
    "== Examples";
    EmptyString;
    "Search queries are executed at Cluster level (not bucket or collection).";
    "Here is a simple MatchQuery that looks for the text “swanky” using a defined index:";
    triple_quote;
    "# tag::imports[]";
    "from couchbase.cluster import Cluster, ClusterOptions, PasswordAuthenticator";
    "from couchbase.exceptions import CouchbaseException";
    ("from couchbase.search import QueryStringQuery, SearchQuery, SearchOptions, PrefixQuery, HighlightStyle, SortField, " ++ String backslash EmptyString)%string;
    "    SortScore, TermFacet";
    "from couchbase.mutation_state import MutationState";
    EmptyString;
    "import logging";
    "# end::imports[]";
    EmptyString;
    EmptyString;
    "class Search:";
    EmptyString;
    "    @staticmethod";
    ("    def __call__(" ++ "*args: str):")%string;
    ("        cluster = Cluster.connect(" ++ quoted "localhost" ++ ", ClusterOptions(PasswordAuthenticator(" ++ quoted "Administrator" ++ ", " ++ quoted "password" ++ ")))")%string;
    ("        bucket = cluster.bucket(" ++ quoted "travel-sample" ++ ")")%string;
    "        collection = bucket.default_collection()";
    EmptyString;
    ("        " ++ dq ++ dq ++ dq)%string;
    "== Examples";
    EmptyString;
    "Search queries are executed at Cluster level (not bucket or collection).";
    "Here is a simple MatchQuery that looks for the text “swanky” using a defined index:";
    EmptyString;
    "[source,python]";
    "----";
    "include::example$search.py[tag=simple,indent=0]";
    "----";
    triple_quote;
    "        # tag::simple[]";
    "        import traceback";
    "        try:";
    ("            result = cluster.search_query(" ++ quoted "index" ++ ",")%string;
    ("                                          QueryStringQuery(" ++ quoted "query" ++ "))")%string;
    "            for row in result.rows():";
    ("                print(" ++ quoted "Found row {}" ++ ".format(row)")%string;
    ("                print(" ++ quoted "Reported total rows: ")%string;
    "                      + result.metadata().metrics().total_rows())";
    "        except CouchbaseException:";
    "            logging.error(traceback.format_exc())";
    "        # end::simple[]";
    ("        " ++ dq ++ dq ++ dq)%string;
    "All simple query types are created in the same manner, some have additional properties, which can be seen in common query type descriptions.";
    "    Couchbase FTS's xref:6.5@server:fts:fts-query-types.adoc[range of query types] enable powerful searching using multiple options, to ensure results are just within the range wanted.";
    "Here is a date range query that looks for dates between 1st January 2019 and 31st January:";
    EmptyString;
    "[source,python]";
    "----";
    ("Exception in thread " ++ quoted "main" ++ " com.couchbase.client.core.error.IndexNotFoundException: Index not found {" ++ quoted "completed" ++ ":true," ++ quoted "coreId" ++ ":1," ++ quoted "httpStatus" ++ ":400," ++ quoted "idempotent" ++ ":true," ++ quoted "lastDispatchedFrom" ++ ":" ++ quoted "127.0.0.1:53818" ++ "," ++ quoted "lastDispatchedTo" ++ ":" ++ quoted "127.0.0.1:8094" ++ "," ++ quoted "requestId" ++ ":3," ++ quoted "requestType" ++ ":" ++ quoted "SearchRequest" ++ "," ++ quoted "service" ++ ":{" ++ quoted "indexName" ++ ":" ++ quoted "unknown-index" ++ "," ++ quoted "type" ++ ":" ++ quoted "search" ++ "}," ++ quoted "status" ++ ":" ++ quoted "INVALID_ARGS" ++ "," ++ quoted "timeoutMs" ++ ":75000," ++ quoted "timings" ++ ":{" ++ quoted "dispatchMicros" ++ ":18289," ++ quoted "totalMicros" ++ ":1359398}}")%string;
    "----";
    EmptyString;
    "[NOTE]";
    ".Open Buckets and Cluster-Level Queries";
    "====";
    "If you are using a cluster older than Couchbase Server 6.5, it is required that there is at least one bucket open before performing a cluster-level query. ";
    "If you fail to do so, the SDK will return a `FeatureNotAvailableException` with a descriptive error message asking you to open one.";
    "====";
    EmptyString;
    "== Search Queries";
    EmptyString;
    ("The second mandatory argument in the example above used `SearchQuery.queryString(" ++ quoted "query" ++ ")` to specify the query to run against the search index. ")%string;
    "The query string is the simplest form, but there are many more available. ";
    "The table below lists all of them with a short description of each. ";
    "You can combine them with `conjuncts` and `disjuncts` respectively.";
    EmptyString;
    ".Available Search Queries";
    ("[options=" ++ quoted "header" ++ "]")%string;
    "|====";
    "| Name       | Description";
    "| `QueryStringQuery(query)` | Accept query strings, which express query-requirements in a special syntax.";
    "| `MatchQuery(String match)` | A match query analyzes input text, and uses the results to query an index.";
    "| `MatchPhraseQuery(String matchPhrase)` | The input text is analyzed, and a phrase query is built with the terms resulting from the analysis.";
    "| `PrefixQuery(String prefix)` | A prefix query finds documents containing terms that start with the specified prefix.";
    "| `RegexQuery(String regexp)` | A regexp query finds documents containing terms that match the specified regular expression.";
    "| `TermRangeQuery()` | A term range query finds documents containing a term in the specified field within the specified range.";
    "| `NumericRangeQuery()` | A numeric range query finds documents containing a numeric value in the specified field within the specified range.";
    "| `DateRangeQuery()` | A date range query finds documents containing a date value, in the specified field within the specified range.";
    "| `DisjunctionQuery(SearchQuery... queries)` | A disjunction query contains multiple child queries. Its result documents must satisfy a configurable min number of child queries.";
    "| `ConjunctionQuery(SearchQuery... queries)` | A conjunction query contains multiple child queries. Its result documents must satisfy all of the child queries.";
    "| `WildcardQuery(String wildcard)` | A wildcard query uses a wildcard expression, to search within individual terms for matches.";
    "| `DocIdQuery(String... docIds)` | A doc ID query returns the indexed document or documents among the specified set.";
    "| `BooleanFieldQuery(bool value)` | A boolean field query searches fields that contain boolean true or false values.";
    "| `TermQuery(String term)` | Performs an exact match in the index for the provided term.";
    "| `PhraseQuery(String... terms)` | A phrase query searches for terms occurring in the specified position and offsets.";
    "| `MatchAllQuery()` | Matches all documents in an index, irrespective of terms.";
    "| `MatchNoneQuery()` | Matches no documents in the index.";
    "| `GeoBoundingBoxQuery(double topLeftLon, double topLeftLat, double bottomRightLon, double bottomRightLat)` | Searches inside the given bounding box coordinates.";
    "| `GeoDistanceQuery     (d          ouble locationLon, double locationLat, String distance)` | Searches inside the distance from the given location coordinate.";
    "|====";
    EmptyString;
    "== Search Options";
    EmptyString;
    "The search service provides an array of options to customize your query. The following table lists them all:";
    EmptyString;
    ".Available Search Options";
    ("[options=" ++ quoted "header" ++ "]")%string;
    "|====";
    "| Name       | Description";
    "| `limit(int)` | Allows to limit the number of hits returned.";
    "| `skip(int)` | Allows to skip the first N hits of the results returned.";
    "| `explain(bool)` | Adds additional explain debug information to the result.";
    "| `scan_consistency(SearchScanConsistency)` | Specifies a different consistency level for the result hits.";
    "| `consistent_with(MutationState)` | Allows to be consistent with previously performed mutations.";
    "| `highlight(HighlightStyle, str...)` | Specifies highlighting rules for matched fields.";
    "| `sort(Object)` | Allows to provide custom sorting rules.";
    "| `facets(Map[str, SearchFacet])` | Allows to fetch facets in addition to the regular hits.";
    "| `fields(str...)` | Specifies fields to be included.";
    "| `serializer(JsonSerializer)` | Allows to use a different serializer for the decoding of the rows.";
    "| `raw(str, Object)` | Escape hatch to add arguments that are not covered by these options.";
    "|====";
    EmptyString;
    "== The Search Result";
    EmptyString;
    "Once the search query is executed successfully, the server starts sending back the resultant hits.";
    EmptyString;
    "[source,python]";
    "----";
    "include::example$search.py[tag=squery,indent=0]";
    triple_quote;
    "        #tag::squery[]";
    ("        result = cluster.search_query(" ++ quoted "my-index-name" ++ ", PrefixQuery(" ++ quoted "airports-" ++ "), SearchOptions(fields=[" ++ quoted "field-1" ++ "]))")%string;
    EmptyString;
    "        for row in result.rows():";
    ("            print(" ++ quoted "Score: {}" ++ ".format(row.score()))")%string;
    ("            print(" ++ quoted "Document Id: {}" ++ ".format(row.id()))")%string;
    EmptyString;
    "            # Also print fields that are included in the query";
    "            print(row.fields())";
    "        #end::squery[]";
    ("        " ++ dq ++ dq ++ dq)%string;
    "=== Limit and Skip";
    EmptyString;
    "It is possible to limit the returned results to a maximum amount using the `limit` option.";
    "    If you want to skip the first N records it can be done with the `skip` option.";
    EmptyString;
    "[source,python]";
    triple_quote;
    EmptyString;
    "        #tag::limit[]";
    "        result = cluster.search_query(";
    ("            " ++ quoted "index" ++ ",")%string;
    ("            QueryStringQuery(" ++ quoted "query" ++ "),")%string;
    "            SearchOptions(skip=3, limit=4)";
    "        )";
    "        #end::limit[]";
    ("        " ++ dq ++ dq ++ dq)%string;
    "----";
    EmptyString;
    "=== ScanConsistency and ConsistentWith";
    EmptyString;
    "By default, all search queries will return the data from whatever is in the index at the time of query.";
    "These semantics can be tuned if needed so that the hits returned include the most recently performed mutations, at the cost of slightly higher latency since the index needs to be updated first.";
    EmptyString;
    "There are two ways to control consistency: either by supplying a custom `SearchScanConsistency` or using `consistentWith`.";
    "At the moment the cluster only supports `consistentWith`, which is why you only see `SearchScanConsistency.NOT_BOUNDED` in the enum which is the default setting.";
    ("The way to make sure that recently written documents show up in the rfc works as follows (commonly referred to " ++ quoted "read your own writes" ++ " -- RYOW):")%string;
    EmptyString;
    "Like the Couchbase Query Service,";
    "FTS allows `RequestPlus` queries -- _Read-Your-Own_Writes (RYOW)_ consistency, ensuring results contain information from updated indexes:";
    EmptyString;
    "[source,python]";
    "----";
    "include::example$search.py[tag=ryow,indent=0]";
    triple_quote;
    "        #tag::ryow[]";
    ("        mutation_result = collection.upsert(" ++ quoted "key" ++ ", {})")%string;
    "        mutation_state = MutationState().add_results(mutation_result)";
    EmptyString;
    "        search_result = cluster.search_query(";
    ("            " ++ quoted "index" ++ ",")%string;
    ("            QueryStringQuery(" ++ quoted "query" ++ "),")%string;
    "            SearchOptions().consistent_with(mutation_state))";
    EmptyString;
    "        #end::ryow[]";
    ("        " ++ dq ++ dq ++ dq)%string;
    "----";
    EmptyString;
    "=== Highlight";
    EmptyString;
    "It is possible to enable highlighting for matched fields.";
    "You can either rely on the default highlighting style or provide a specific one.";
    "The following snippet uses HTML formatting for two fields:";
    EmptyString;
    "[source,python]";
    "----";
    "include::example$search.py[tag=highlight,indent=0]";
    "----";
    triple_quote;
    "        #tag::highlight[]";
    "        result = cluster.search_query(";
    ("            " ++ quoted "index" ++ ",")%string;
    ("            QueryStringQuery(" ++ quoted "query" ++ "),")%string;
    ("            SearchOptions(highlight_style=HighlightStyle.HTML, highlight_fields=[" ++ quoted "field1" ++ ", " ++ quoted "field2" ++ "]))")%string;
    EmptyString;
    "        #end::highlight[]";
    ("        " ++ dq ++ dq ++ dq)%string;
    "=== Sort";
    EmptyString;
    "By default the search engine will sort the results in descending order by score.";
    "This behavior can be modified by providing a different sorting order which can also be nested.";
    EmptyString;
    "[source,python]";
    "----";
    "include::example$search.py[tag=sort,indent=0]";
    "----";
    EmptyString;
    triple_quote;
    "        #tag::sort[]";
    "        result = cluster.search_query(";
    ("            " ++ quoted "index" ++ ",")%string;
    ("            QueryStringQuery(" ++ quoted "query" ++ "),")%string;
    ("            SearchOptions(sort=[SortScore(), SortField(" ++ quoted "field" ++ ")]))")%string;
    "        #end::sort[]";
    ("        " ++ dq ++ dq ++ dq)%string;
    "Facets are aggregate information collected on a result set and are useful when it comes to categorization of result data.";
    "The SDK allows you to provide many different facet configurations to the search engine, the following example shows how to create a facet based on a term.";
    "Other possible facets include numeric and date ranges.";
    EmptyString;
    "=== Facets";
    EmptyString;
    "[source,python]";
    "----";
    "include::example$search.py[tag=facets,indent=0]";
    "----";
    EmptyString;
    triple_quote;
    "        # tag::facets[]";
    EmptyString;
    "        result = cluster.search_query(";
    ("            " ++ quoted "index" ++ ",")%string;
    ("            QueryStringQuery(" ++ quoted "query" ++ "),")%string;
    ("            SearchOptions(facets=dict(categories=TermFacet(" ++ quoted "category" ++ ", 5)))")%string;
    "        )";
    "        # end::facets[]";
    EmptyString;
    ("        " ++ dq ++ dq ++ dq)%string;
    "=== Fields";
    EmptyString;
    "You can tell the search engine to include the full content of a certain number of indexed fields in the response.";
    EmptyString;
    "                                                                                                        [source,java]";
    "                                                                                                        ----";
    "include::example$search.py[tag=fields,indent=0]";
    "----";
    triple_quote;
    "        #tag::fields[]";
    "        result = cluster.search_query(";
    ("            " ++ quoted "index" ++ ",")%string;
    ("            QueryStringQuery(" ++ quoted "query" ++ "),")%string;
    ("            SearchOptions(fields=[" ++ quoted "field1" ++ ", " ++ quoted "field2" ++ "])")%string;
    "          )";
    "        #end::fields[]";
    EmptyString;
    "# TODO: document async APIs?";
    "# #tag::simplereactive[]";
    "#   Mono<ReactiveSearchResult> result = cluster";
    "#     .reactive()";
    ("#     .searchQuery(" ++ quoted "index" ++ ", SearchQuery.queryString(" ++ quoted "query" ++ "));")%string;
    "#";
    "#   result";
    "#     .flatMapMany(ReactiveSearchResult::rows)";
    ("#     .subscribe(row -> System.out.println(" ++ quoted "Found row: " ++ " + row));")%string;
    "#   // #end::simplereactive[]";
    "# }";
    EmptyString;
    ("        " ++ dq ++ dq ++ dq)%string;
    "== Working with Results";
    EmptyString;
    "The result of a search query has three components: hits, facets, and metdata.";
    "    Hits are the documents that match the query.";
    "    Facets allow the aggregation of information collected on a particular result set.";
    "    Metdata holds additional information not directly related to your query,";
    "                                                                      such as success total hits and how long the query took to execute in the cluster.";
    EmptyString;
    "[source,python]";
    ".Iterating hits";
    "----";
    triple_quote;
    "        #tag::simpleresult[]";
    "        for hit in result.hits():";
    "            document_id = hit.id";
    "            score = hit.score";
    "        #end::simpleresult[]";
    ("        " ++ dq ++ dq ++ dq)%string;
    "----";
    EmptyString;
    "[source,python]";
    "Iterating facets";
    "               ----";
    triple_quote;
    "        #tag::simplefacetresult[]";
    "        for facet in result.facets():";
    "            name = facet.name";
    "            total = facet.total";
    "        #end::simplefacetresult[]";
    triple_quote;
    "----";
    "The `SearchRow` contains the following methods:";
    EmptyString;
    ".SearchRow";
    ("[options=" ++ quoted "header" ++ "]")%string;
    "|====";
    "| `index()` | The name of the FTS index that gave this result.";
    "                                                       | `id()` | The id of the matching document.";
    "                                                                                         | `score()` | The score of this hit.";
    "                                                                                                                         | `explanation()` | If enabled provides an explanation in JSON form.";
    "                                                                                                                                                                                        | `locations()` | The individual locations of the hits as `SearchRowLocations`.";
    "                                                                                                                                                                                                                                                  | `fragments()` | The fragments for each field that was requested as highlighted.";
    "| `fieldsAs(final Class<T> target)` | Access to the returned fields, decoded via a `Class` type.";
    "| `fieldsAs(final TypeRef<T> target)` | Access to the returned fields, decoded via a `TypeRef` type.";
    "|====";
    EmptyString;
    "Note that the `SearchMetaData` also contains potential `errors`, because the SDK will keep streaming results if the initial response came back successfully.";
    "This makes sure that even with partial data usually search results are useable,";
    "so if you absolutely need to check if all partitions are present in the result double check the error";
    "(and not only catch an exception on the query itself).";
    EmptyString;
    EmptyString;
    "=== Custom JSON Serializer";
    EmptyString;
    "As with all JSON APIs, it is possible to customize the JSON serializer.";
    "You can plug in your own library (like GSON) or custom configure mappings on your own Jackson serializer.";
    "This in turn makes it possible to serialize rows into POJOs or other structures that your application defines, and which the SDK has no idea about.";
    EmptyString;
    "Please see the documentation on transcoding and serialization for more information.";
    EmptyString;
    "== Reactive And Async APIs";
    EmptyString;
    "In addition to the blocking API on `Cluster`, the SDK provides reactive and async APIs on `ReactiveCluster` or `AsyncCluster` respectively.";
    "If you are in doubt of which API to use, we recommend looking at the reactive first:";
    "    it builds on top of reactor, a powerful library that allows you to compose reactive computations and deal with error handling and other related concerns (like retry) in an elegant manner.";
    "The async API on the other hand exposes a `CompletableFuture` and is more meant for lower level integration into other libraries or if you need the last drop of performance.";
    EmptyString;
    "There is another reason for using the reactive API here: streaming large results with backpressure from the application side.";
    "Both the blocking and async APIs have no means of signalling backpressure in a good way, so if you need it the reactive API is your best option.";
    EmptyString;
    "[TIP]";
    ".Advanced Reactive Concepts Ahead";
    "====";
    "Please see recent guides to reactive programming for more information on the basics -- this guide dives straight into their impact on querying search.";
    "====";
    EmptyString;
    "A simple reactive query is similar to the blocking one:";
    EmptyString;
    "    [source,java]";
    "    ----";
    "    include::example$search.py[tag=simplereactive,indent=0]";
    "----";
    EmptyString;
    "This search query will stream all rows as they become available form the server.";
    "    If you want to manually control the data flow (which is important if you are streaming a lot of rows which could cause a potential out of memory situation) you can do this by using explicit `request()` calls.";
    EmptyString;
    "                                                                                                                                                                                                              [source,java]";
    "                                                                                                                                                                                                              ----";
    "include::example$search.py[tag=backpressure,indent=0]";
    "----";
    EmptyString;
    "In this example we initially request a batch size of 10 rows (so streaming can begin).";
    "Then as each row gets streamed it is written to a `process()` method which does whatever it needs to do to process.";
    "    Then a counter is decremented, and once all of the 10 outstanding rows are processed another batch is loaded.";
    "    Please note that with reactive code, if your `process()` method equivalent is blocking, you *must* move it onto another scheduler so that the I/O threads are not stalled.";
    "We always recommend not blocking in the first place in reactive code.";
    triple_quote ].

(** The file with line 64 closed: the one reading under which lines 60-68
    are a [try] statement.  [Search.simple], and with it [Search.__call__]
    and [run], embed this text; the file as it stands is [source_text]. *)
Definition closed_text : list string := with_line source_text 1 64 line_64_closed.

(** ** Strings, brackets and the end of the file

    Python compiles a file before it runs any of it, and the first step
    is lexical: string literals (opened by one quote and closed on the
    same line, or opened by three and closed by three, a backslash taking
    the next character with it), comments, and the brackets, which must
    close in the order they were opened.  A line that ends inside a
    one-quote string, a closing bracket that does not answer the last one
    opened, and a file that ends inside a string or with a bracket still
    open are all reported as [SyntaxError]; the last one as
    ['(' was never closed], with the place of the bracket. *)

Inductive mode : Type :=
| Code                (* outside any string *)
| Short (q : ascii)   (* in a string opened by one [q] *)
| Long (q : ascii).   (* in a string opened by three [q] *)

(** An open bracket and where it stands. *)
Record bracket : Type := { br_line : nat; br_col : nat; br_char : ascii }.

Definition closes (c : ascii) (b : bracket) : bool :=
  (Ascii.eqb (br_char b) "(" && Ascii.eqb c ")")
  || (Ascii.eqb (br_char b) "[" && Ascii.eqb c "]")
  || (Ascii.eqb (br_char b) "{" && Ascii.eqb c "}").

(** One line, from column [col] on: the mode and the open brackets at its
    end, or [None] where the line cannot be read. *)
Fixpoint lex_line (line col : nat) (s : string) (m : mode) (open : list bracket)
  : option (mode * list bracket) :=
  match s with
  | EmptyString =>
      match m with
      | Short _ => None
      | _ => Some (m, open)
      end
  | String c rest =>
      match m with
      | Code =>
          if is_quote c then
            match rest with
            | String c1 (String c2 rest') =>
                if Ascii.eqb c1 c && Ascii.eqb c2 c
                then lex_line line (3 + col) rest' (Long c) open
                else lex_line line (S col) rest (Short c) open
            | _ => lex_line line (S col) rest (Short c) open
            end
          else if Ascii.eqb c "#" then Some (Code, open)
          else if is_opener c then
            lex_line line (S col) rest Code
              ({| br_line := line; br_col := col; br_char := c |} :: open)
          else if is_closer c then
            match open with
            | b :: open' =>
                if closes c b then lex_line line (S col) rest Code open' else None
            | [] => None
            end
          else lex_line line (S col) rest Code open
      | Short q =>
          if Ascii.eqb c backslash then
            match rest with
            | String _ rest' => lex_line line (2 + col) rest' m open
            | EmptyString => Some (m, open)
            end
          else lex_line line (S col) rest (if Ascii.eqb c q then Code else m) open
      | Long q =>
          if Ascii.eqb c backslash then
            match rest with
            | String _ rest' => lex_line line (2 + col) rest' m open
            | EmptyString => Some (m, open)
            end
          else if Ascii.eqb c q then
            match rest with
            | String c1 (String c2 rest') =>
                if Ascii.eqb c1 q && Ascii.eqb c2 q
                then lex_line line (3 + col) rest' Code open
                else lex_line line (S col) rest m open
            | _ => lex_line line (S col) rest m open
            end
          else lex_line line (S col) rest m open
      end
  end.

Fixpoint lex_from (line : nat) (text : list string) (m : mode) (open : list bracket)
  : option (mode * list bracket) :=
  match text with
  | [] => Some (m, open)
  | l :: rest =>
      match lex_line line 1 l m open with
      | Some (m', open') => lex_from (S line) rest m' open'
      | None => None
      end
  end.

(** Where the end of a text leaves the reader; lines count from 1. *)
Definition lex (text : list string) : option (mode * list bracket) :=
  lex_from 1 text Code [].

(** The text can be read to its end and ends outside any string with
    every bracket closed.  A text that is a Python program passes; the
    converse needs the grammar and is not claimed. *)
Definition balanced (text : list string) : bool :=
  match lex text with
  | Some (Code, []) => true
  | _ => false
  end.

(** The lines that start outside a string, each with its number and the
    number of brackets open where it starts. *)
Fixpoint code_lines_from (line : nat) (text : list string) (m : mode)
    (open : list bracket) : list (nat * nat * string) :=
  match text with
  | [] => []
  | l :: rest =>
      match m with
      | Code => [(line, List.length open, l)]
      | _ => []
      end ++
      match lex_line line 1 l m open with
      | Some (m', open') => code_lines_from (S line) rest m' open'
      | None => []
      end
  end.

Definition code_lines (text : list string) : list (nat * nat * string) :=
  code_lines_from 1 text Code [].

(** Line number and depth of the code lines that open with a keyword. *)
Definition lines_opening_with (keyword : string) (text : list string)
  : list (nat * nat) :=
  map fst (filter (fun l => String.prefix keyword (lstrip (snd l))) (code_lines text)).

(** ** Running the file as it is written *)

Definition syntax_error : exn :=
  {| exn_class := "SyntaxError"; exn_bases := ["Exception"; "BaseException"] |}.

(** The embedding of a text: the program it stands for, when the text can
    be one at all. *)
Definition embed {P : Type} (text : list string) (program : P) : option P :=
  if balanced text then Some program else None.

(** Running a text: it is compiled first, and a text that does not compile
    raises [SyntaxError] before anything of it has run. *)
Definition load {W A} (text : list string) (program : @M W A) : @M W A :=
  fun s =>
    match embed text program with
    | Some p => p s
    | None => (Raise syntax_error, s)
    end.

(** The module as the file has it. *)
Definition as_written {W} (lib : Library W) : @M W unit :=
  load source_text (Search.__call__ lib).

Definition run_as_written {W} (lib : Library W) (w : W) : outcome unit * trace :=
  let r := as_written lib (start w) in (fst r, snd (snd r)).

(** The bracket that the file never closes: the one that opens the
    [print] call of line 64. *)
Definition open_print : bracket :=
  {| br_line := 64; br_col := 22; br_char := "(" |}.

Lemma source_text_ends_in_the_print_call :
  lex source_text = Some (Code, [open_print]).
Proof. vm_compute. reflexivity. Qed.

Lemma source_text_is_not_balanced : balanced source_text = false.
Proof. unfold balanced. rewrite source_text_ends_in_the_print_call. reflexivity. Qed.

Lemma closed_text_is_balanced : balanced closed_text = true.
Proof. vm_compute. reflexivity. Qed.

(** As written, the file raises [SyntaxError] from any state and leaves
    the state as it found it: nothing has been called. *)
Lemma as_written_raises {W} (lib : Library W) (s : @state W) :
  as_written lib s = (Raise syntax_error, s).
Proof.
  unfold as_written, load, embed. rewrite source_text_is_not_balanced. reflexivity.
Qed.

Lemma run_as_written_is_empty {W} (lib : Library W) (w : W) :
  run_as_written lib w = (Raise syntax_error, []).
Proof. unfold run_as_written. rewrite as_written_raises. reflexivity. Qed.

(** With line 64 closed the text compiles, and running it is running
    [Search.__call__]. *)
Lemma closed_text_runs {W} (lib : Library W) (s : @state W) :
  load closed_text (Search.__call__ lib) s = Search.__call__ lib s.
Proof. unfold load, embed. rewrite closed_text_is_balanced. reflexivity. Qed.

(** The snippets kept above are the lines of the file they are said to be. *)
Lemma snippets_are_lines_of_the_file :
  firstn 10 (skipn 58 source_text) = simple_text /\
  firstn 11 (skipn 281 source_text) = reactive_fragment /\
  skipn 323 source_text = closing_text /\
  List.length source_text = 391.
Proof. repeat split; vm_compute; reflexivity. Qed.

(** * Reasoning about runs *)

(** ** A logic of emitted events

    [spec m Phi]: from any state, [m] appends some events to the trace,
    and [Phi] holds of how it ended and of exactly those events.  The
    world is left unconstrained: the library may answer as it likes. *)

Section Logic.
Context {W : Type} (lib : Library W).

Definition spec {A} (m : @M W A) (Phi : outcome A -> trace -> Prop) : Prop :=
  forall w t, exists evs,
    snd (snd (m (w, t))) = t ++ evs /\ Phi (fst (m (w, t))) evs.

Lemma spec_ret {A} (a : A) (Phi : outcome A -> trace -> Prop) :
  Phi (Ok a) [] -> spec (ret a) Phi.
Proof.
  intros H w t. exists []. cbn. rewrite app_nil_r. auto.
Qed.

Lemma spec_call c args (Phi : outcome obj -> trace -> Prop) :
  (forall v, Phi (Ok v) [{| ev_target := c; ev_args := args; ev_reply := Returned v |}]) ->
  (forall e, Phi (Raise e) [{| ev_target := c; ev_args := args; ev_reply := Raised e |}]) ->
  spec (call lib c args) Phi.
Proof.
  intros Hv He w t. unfold call. cbn [fst snd].
  destruct (respond lib c args w) as [[v|e] w']; cbn [fst snd]; eauto.
Qed.

Lemma spec_iterate it (Phi : outcome (list obj) -> trace -> Prop) :
  (forall xs, Phi (Ok xs) [{| ev_target := Iterate it; ev_args := []; ev_reply := Yielded xs |}]) ->
  (forall e, Phi (Raise e) [{| ev_target := Iterate it; ev_args := []; ev_reply := Raised e |}]) ->
  spec (iterate lib it) Phi.
Proof.
  intros Hv He w t. unfold iterate. cbn [fst snd].
  destruct (yield lib it w) as [[v|e] w']; cbn [fst snd]; eauto.
Qed.

Lemma spec_bind {A B} (m : M A) (k : A -> M B) Phi1 (Phi2 : A -> outcome B -> trace -> Prop)
      (Phi : outcome B -> trace -> Prop) :
  spec m Phi1 ->
  (forall a, spec (k a) (Phi2 a)) ->
  (forall a evs1 o evs2, Phi1 (Ok a) evs1 -> Phi2 a o evs2 -> Phi o (evs1 ++ evs2)) ->
  (forall e evs, Phi1 (Raise e) evs -> Phi (Raise e) evs) ->
  spec (bind m k) Phi.
Proof.
  intros Hm Hk Hok Hraise w t. unfold bind.
  destruct (Hm w t) as (evs1 & Ht & H1).
  destruct (m (w, t)) as [[a|e] [w' t']]; cbn [fst snd] in *; subst t'.
  - destruct (Hk a w' (t ++ evs1)) as (evs2 & Ht2 & H2).
    exists (evs1 ++ evs2). rewrite Ht2, app_assoc. eauto.
  - exists evs1. eauto.
Qed.

Lemma spec_try {A} (body handler : M A) cls Phi1 Phi2 (Phi : outcome A -> trace -> Prop) :
  spec body Phi1 ->
  spec handler Phi2 ->
  (forall a evs, Phi1 (Ok a) evs -> Phi (Ok a) evs) ->
  (forall e evs, isinstance e cls = false -> Phi1 (Raise e) evs -> Phi (Raise e) evs) ->
  (forall e evs1 o evs2, isinstance e cls = true ->
     Phi1 (Raise e) evs1 -> Phi2 o evs2 -> Phi o (evs1 ++ evs2)) ->
  spec (try_except body cls handler) Phi.
Proof.
  intros Hb Hh Hok Hpass Hcatch w t. unfold try_except.
  destruct (Hb w t) as (evs1 & Ht & H1).
  destruct (body (w, t)) as [[a|e] [w' t']]; cbn [fst snd] in *; subst t'.
  - exists evs1. eauto.
  - destruct (isinstance e cls) eqn:Hi.
    + destruct (Hh w' (t ++ evs1)) as (evs2 & Ht2 & H2).
      exists (evs1 ++ evs2). rewrite Ht2, app_assoc. eauto.
    + exists evs1. cbn [fst snd]. eauto.
Qed.

Lemma spec_weaken {A} (m : M A) (Phi Psi : outcome A -> trace -> Prop) :
  spec m Phi -> (forall o evs, Phi o evs -> Psi o evs) -> spec m Psi.
Proof.
  intros Hm Himp w t. destruct (Hm w t) as (evs & Ht & H). eauto.
Qed.

(** ** Properties of the trace that are closed under concatenation *)

Section Always.
Variable Inv : trace -> Prop.
Hypothesis Inv_nil : Inv [].
Hypothesis Inv_app : forall t1 t2, Inv t1 -> Inv t2 -> Inv (t1 ++ t2).

Definition always {A} (m : @M W A) : Prop := spec m (fun _ evs => Inv evs).

Lemma always_ret {A} (a : A) : always (ret a).
Proof. apply spec_ret. exact Inv_nil. Qed.

Lemma always_call c args :
  (forall r, Inv [{| ev_target := c; ev_args := args; ev_reply := r |}]) ->
  always (call lib c args).
Proof. intros H. apply spec_call; intros; apply H. Qed.

Lemma always_iterate it :
  (forall r, Inv [{| ev_target := Iterate it; ev_args := []; ev_reply := r |}]) ->
  always (iterate lib it).
Proof. intros H. apply spec_iterate; intros; apply H. Qed.

Lemma always_bind {A B} (m : M A) (k : A -> M B) :
  always m -> (forall a, always (k a)) -> always (bind m k).
Proof.
  intros Hm Hk.
  eapply spec_bind with (Phi2 := fun _ _ evs => Inv evs); eauto.
Qed.

Lemma always_for_each xs (body : obj -> M unit) :
  (forall x, always (body x)) -> always (for_each xs body).
Proof.
  intros Hb. induction xs as [|x xs IH]; cbn [for_each].
  - apply always_ret.
  - apply always_bind; auto.
Qed.

Lemma always_for_in it (body : obj -> M unit) :
  (forall r, Inv [{| ev_target := Iterate it; ev_args := []; ev_reply := r |}]) ->
  (forall x, always (body x)) -> always (for_in lib it body).
Proof.
  intros Hi Hb. unfold for_in. apply always_bind.
  - apply always_iterate; auto.
  - intros xs. apply always_for_each; auto.
Qed.

Lemma always_try {A} (body handler : M A) cls :
  always body -> always handler -> always (try_except body cls handler).
Proof.
  intros Hb Hh.
  eapply spec_try with (Phi1 := fun _ evs => Inv evs) (Phi2 := fun _ evs => Inv evs);
    eauto; intros; cbn in *; auto.
Qed.

Lemma always_run {A} (m : M A) w : always m -> Inv (snd (snd (m (start w)))).
Proof.
  intros H. unfold start. destruct (H w []) as (evs & Ht & Hi).
  rewrite Ht. exact Hi.
Qed.
End Always.
End Logic.

(** Walks a program built from the combinators, leaving one goal for each
    call site: the property of the single event it emits. *)
Ltac walk_step :=
  first [ apply always_ret | apply always_for_in | apply always_try
        | apply always_for_each | apply always_iterate | apply always_call
        | apply always_bind ];
  try assumption; intros.

Ltac walk :=
  unfold method, static, getattr, builtin; repeat walk_step.

(** [Forall P] is such a property. *)
Lemma Forall_app_intro {A} (P : A -> Prop) (l1 l2 : list A) :
  Forall P l1 -> Forall P l2 -> Forall P (l1 ++ l2).
Proof. intros; apply Forall_app; auto. Qed.

(** ** Auditing every event of every run with a boolean check *)

Definition audited (p : event -> bool) (t : trace) : Prop :=
  Forall (fun ev => p ev = true) t.

Lemma audited_nil p : audited p [].
Proof. constructor. Qed.

Lemma audited_app p t1 t2 : audited p t1 -> audited p t2 -> audited p (t1 ++ t2).
Proof. apply Forall_app_intro. Qed.

Lemma audited_one p ev : p ev = true -> audited p [ev].
Proof. intros H. repeat constructor. exact H. Qed.

(** Proves [always (audited p) m] for a program [m] written with the
    combinators, when [p] accepts each of its call sites by computation. *)
Ltac audit :=
  let Hn := fresh "Hnil" in
  let Ha := fresh "Happ" in
  match goal with
  | |- always (audited ?p) _ =>
      pose proof (audited_nil p) as Hn;
      pose proof (audited_app p) as Ha;
      walk; try (apply audited_one; reflexivity)
  end.

Definition mem (s : string) (l : list string) : bool := existsb (String.eqb s) l.

(** Names of the reactive and asynchronous API that the commented-out
    fragment (lines 282-292) and the closing prose mention. *)
Definition reactive_api : list string :=
  ["reactive"; "searchQuery"; "flatMapMany"; "subscribe"; "request";
   "ReactiveCluster"; "AsyncCluster"].

Definition blocking_call (ev : event) : bool :=
  match ev_target ev with
  | StaticCall cls meth => negb (mem cls reactive_api) && negb (mem meth reactive_api)
  | Method _ meth => negb (mem meth reactive_api)
  | GetAttr _ name => negb (mem name reactive_api)
  | Iterate _ => true
  | Builtin name => negb (mem name reactive_api)
  end.

(** ** Where an object came from

    The module only ever calls into objects the library gave it.  What an
    object is, is therefore read off the trace: the object returned by
    [Cluster.connect] is a cluster, what [search_query] returns on a
    cluster is a search result, what iterating [result.rows()] yields is a
    row, and so on along the member chains the source uses. *)

Inductive kind : Type :=
| KCluster | KBucket | KCollection | KMutationResult
| KResult | KRows | KRow | KHits | KHit | KFacets | KFacet
| KMetaData | KMetrics | KValue.

Inductive access : Type :=
| ByCall (meth : string)   (* recv.meth(...) *)
| ByAttr (name : string)   (* recv.name *)
| ByIter.                   (* for x in recv *)

(** The member chains of the source: which member of which kind of object
    the module uses, and the kind of object that gives. *)
Definition follow (K : kind) (a : access) : option kind :=
  match K, a with
  | KCluster, ByCall m =>
      if m =? "bucket" then Some KBucket
      else if m =? "search_query" then Some KResult else None
  | KBucket, ByCall m => if m =? "default_collection" then Some KCollection else None
  | KCollection, ByCall m => if m =? "upsert" then Some KMutationResult else None
  | KResult, ByCall m =>
      if m =? "rows" then Some KRows
      else if m =? "hits" then Some KHits
      else if m =? "facets" then Some KFacets
      else if m =? "metadata" then Some KMetaData else None
  | KMetaData, ByCall m => if m =? "metrics" then Some KMetrics else None
  | KMetrics, ByCall m => if m =? "total_rows" then Some KValue else None
  | KRows, ByIter => Some KRow
  | KRow, ByCall m => if mem m ["score"; "id"; "fields"] then Some KValue else None
  | KHits, ByIter => Some KHit
  | KHit, ByAttr n => if mem n ["id"; "score"] then Some KValue else None
  | KFacets, ByIter => Some KFacet
  | KFacet, ByAttr n => if mem n ["name"; "total"] then Some KValue else None
  | _, _ => None
  end.

(** Calls into the Python runtime and standard library. *)
Definition runtime_names : list string :=
  ["print"; "str.format"; "str.__add__"; "traceback.format_exc"; "logging.error"].

Definition kenv : Type := list (obj * kind).

Definition kinds_of (G : kenv) (v : obj) : list kind :=
  map snd (filter (fun p => Nat.eqb (fst p) v) G).

Definition results (Ks : list kind) (a : access) (vs : list obj) : kenv :=
  flat_map (fun K => match follow K a with
                     | Some K' => map (fun v => (v, K')) vs
                     | None => []
                     end) Ks.

Definition is_connect (cls meth : string) : bool :=
  (cls =? "Cluster") && (meth =? "connect").

(** What an event tells about the objects it returned. *)
Definition produced (G : kenv) (ev : event) : kenv :=
  match ev_target ev, ev_reply ev with
  | StaticCall cls meth, Returned v => if is_connect cls meth then [(v, KCluster)] else []
  | Method r m, Returned v => results (kinds_of G r) (ByCall m) [v]
  | GetAttr r n, Returned v => results (kinds_of G r) (ByAttr n) [v]
  | Iterate it, Yielded xs => results (kinds_of G it) ByIter xs
  | _, _ => []
  end.

Definition allowed (a : access) (K : kind) : bool :=
  match follow K a with Some _ => true | None => false end.

(** An event is justified when it targets the library through an imported
    entry point or through an object the library gave earlier, by a member
    that objects of its kind are used with; or when it is a runtime call. *)
Definition justified (G : kenv) (ev : event) : bool :=
  match ev_target ev with
  | StaticCall cls meth => is_connect cls meth
  | Method r m => existsb (allowed (ByCall m)) (kinds_of G r)
  | GetAttr r n => existsb (allowed (ByAttr n)) (kinds_of G r)
  | Iterate it => existsb (allowed ByIter) (kinds_of G it)
  | Builtin n => mem n runtime_names
  end.

Fixpoint provenance (G : kenv) (t : trace) : kenv :=
  match t with
  | [] => G
  | ev :: t' => provenance (produced G ev ++ G) t'
  end.

Fixpoint well_kinded (G : kenv) (t : trace) : bool :=
  match t with
  | [] => true
  | ev :: t' => justified G ev && well_kinded (produced G ev ++ G) t'
  end.

Lemma provenance_app G t1 t2 :
  provenance G (t1 ++ t2) = provenance (provenance G t1) t2.
Proof. revert G; induction t1 as [|ev t1 IH]; intros G; cbn; auto. Qed.

Lemma well_kinded_app G t1 t2 :
  well_kinded G (t1 ++ t2) = well_kinded G t1 && well_kinded (provenance G t1) t2.
Proof.
  revert G; induction t1 as [|ev t1 IH]; intros G; cbn; auto.
  rewrite IH, andb_assoc. reflexivity.
Qed.

Lemma provenance_incl G t : incl G (provenance G t).
Proof.
  revert G; induction t as [|ev t IH]; intros G; cbn.
  - apply incl_refl.
  - eapply incl_tran; [|apply IH]. apply incl_appr, incl_refl.
Qed.

Lemma In_kinds_of G v K : In K (kinds_of G v) <-> In (v, K) G.
Proof.
  unfold kinds_of. rewrite in_map_iff. split.
  - intros ([v' K'] & HK & Hin). cbn in HK; subst K'.
    apply filter_In in Hin. destruct Hin as [Hin Heq]. cbn in Heq.
    apply Nat.eqb_eq in Heq. subst v'. exact Hin.
  - intros Hin. exists (v, K). split; auto.
    apply filter_In. split; auto. cbn. apply Nat.eqb_refl.
Qed.

Lemma In_results Ks a vs v K' :
  In (v, K') (results Ks a vs) <->
  exists K, In K Ks /\ follow K a = Some K' /\ In v vs.
Proof.
  unfold results. rewrite in_flat_map. split.
  - intros (K & HK & Hin). exists K. destruct (follow K a) as [K''|]; [|contradiction].
    apply in_map_iff in Hin. destruct Hin as (v' & Heq & Hv).
    inversion Heq; subst. auto.
  - intros (K & HK & Hf & Hv). exists K. split; auto. rewrite Hf.
    apply in_map_iff. eauto.
Qed.

Lemma justified_by G r a K K' :
  In (r, K) G -> follow K a = Some K' ->
  existsb (allowed a) (kinds_of G r) = true.
Proof.
  intros Hin Hf. apply existsb_exists. exists K. split.
  - apply In_kinds_of; auto.
  - unfold allowed. rewrite Hf. reflexivity.
Qed.

(** ** Typing programs by the kinds of the objects they hold

    [typed G m D]: if the objects listed in [G] are known, from the trace
    so far, to have the kinds [G] gives them, then every event [m] emits is
    justified, and on normal return with [a] the objects in [D a] have the
    kinds listed there. *)

Section Typing.
Context {W : Type} (lib : Library W).

Definition typed {A} (G : kenv) (m : @M W A) (D : A -> kenv) : Prop :=
  spec m (fun o evs =>
    forall G0, incl G G0 ->
      well_kinded G0 evs = true /\
      match o with
      | Ok a => incl (D a) (provenance G0 evs)
      | Raise _ => True
      end).

Lemma typed_ret {A} G (a : A) : typed G (ret a) (fun _ => []).
Proof.
  apply spec_ret. intros G0 _. split; [reflexivity|]. intros x [].
Qed.

Lemma typed_bind {A B} G (m : M A) (k : A -> M B) D1 D :
  typed G m D1 ->
  (forall a, typed (D1 a ++ G) (k a) D) ->
  typed G (bind m k) D.
Proof.
  intros Hm Hk.
  eapply spec_bind with
    (Phi2 := fun a o evs => forall G0, incl (D1 a ++ G) G0 ->
       well_kinded G0 evs = true /\
       match o with Ok b => incl (D b) (provenance G0 evs) | Raise _ => True end);
    [exact Hm | exact Hk | |].
  - cbn beta. intros a evs1 o evs2 H1 H2 G0 HG.
    destruct (H1 G0 HG) as [Hwk1 HD1].
    assert (HG' : incl (D1 a ++ G) (provenance G0 evs1)).
    { apply incl_app; auto. eapply incl_tran; [exact HG | apply provenance_incl]. }
    destruct (H2 _ HG') as [Hwk2 HD].
    rewrite well_kinded_app, provenance_app, Hwk1, Hwk2. auto.
  - cbn beta. intros e evs H1 G0 HG. destruct (H1 G0 HG). auto.
Qed.

Lemma typed_weaken {A} G (m : M A) D D' :
  typed G m D -> (forall a, incl (D' a) (D a)) -> typed G m D'.
Proof.
  intros Hm Hinc. eapply spec_weaken; [exact Hm|].
  cbn beta. intros o evs H G0 HG. destruct (H G0 HG) as [Hwk HD].
  split; auto. destruct o; auto. eapply incl_tran; eauto.
Qed.

Lemma typed_connect G args :
  typed G (call lib (StaticCall "Cluster" "connect") args) (fun v => [(v, KCluster)]).
Proof.
  apply spec_call; intros x0 G0 HG; split; try reflexivity; auto.
  cbn. intros x [<-|[]]. left; reflexivity.
Qed.

Lemma typed_builtin G name args :
  mem name runtime_names = true ->
  typed G (call lib (Builtin name) args) (fun _ => []).
Proof.
  intros Hn.
  apply spec_call; intros x0 G0 HG; (split; [unfold well_kinded, justified; cbn [ev_target]; rewrite Hn; reflexivity|]); auto.
  intros x [].
Qed.

Lemma typed_method G r m args K K' :
  In (r, K) G -> follow K (ByCall m) = Some K' ->
  typed G (call lib (Method r m) args) (fun v => [(v, K')]).
Proof.
  intros Hin Hf.
  apply spec_call; intros x0 G0 HG;
    (split; [unfold well_kinded, justified; cbn [ev_target]; erewrite justified_by; eauto|]); auto.
  cbn. intros x [<-|[]]. apply in_or_app. left.
  apply In_results. exists K. repeat split; auto.
  - apply In_kinds_of; auto.
  - left; reflexivity.
Qed.

Lemma typed_getattr G r n K K' :
  In (r, K) G -> follow K (ByAttr n) = Some K' ->
  typed G (call lib (GetAttr r n) []) (fun v => [(v, K')]).
Proof.
  intros Hin Hf.
  apply spec_call; intros x0 G0 HG;
    (split; [unfold well_kinded, justified; cbn [ev_target]; erewrite justified_by; eauto|]); auto.
  cbn. intros x [<-|[]]. apply in_or_app. left.
  apply In_results. exists K. repeat split; auto.
  - apply In_kinds_of; auto.
  - left; reflexivity.
Qed.

Lemma typed_iterate G it K K' :
  In (it, K) G -> follow K ByIter = Some K' ->
  typed G (iterate lib it) (fun xs => map (fun x => (x, K')) xs).
Proof.
  intros Hin Hf.
  apply spec_iterate; intros x0 G0 HG;
    (split; [unfold well_kinded, justified; cbn [ev_target]; erewrite justified_by; eauto|]); auto.
  cbn. intros [x K''] Hx. apply in_map_iff in Hx. destruct Hx as (x' & Heq & Hx).
  inversion Heq; subst. apply in_or_app. left.
  apply In_results. exists K. repeat split; auto.
  apply In_kinds_of; auto.
Qed.

Lemma typed_context {A} G G' (m : M A) D :
  typed G m D -> incl G G' -> typed G' m D.
Proof.
  intros Hm Hinc. eapply spec_weaken; [exact Hm|].
  cbn beta. intros o evs H G0 HG. apply H. eapply incl_tran; eauto.
Qed.

Lemma typed_for_each G xs (body : obj -> M unit) (Db : obj -> unit -> kenv) :
  (forall x, In x xs -> typed G (body x) (Db x)) ->
  typed G (for_each xs body) (fun _ => []).
Proof.
  induction xs as [|x xs IH]; intros Hb; cbn [for_each].
  - apply typed_ret.
  - eapply typed_bind.
    + apply Hb. left; reflexivity.
    + intros u. eapply typed_context.
      * apply IH. intros y Hy. apply Hb. right; exact Hy.
      * apply incl_appr, incl_refl.
Qed.

Lemma typed_for_in G it K K' (body : obj -> M unit) (Db : obj -> unit -> kenv) :
  In (it, K) G -> follow K ByIter = Some K' ->
  (forall x, typed ((x, K') :: G) (body x) (Db x)) ->
  typed G (for_in lib it body) (fun _ => []).
Proof.
  intros Hin Hf Hb. unfold for_in. eapply typed_bind.
  - eapply typed_iterate; eauto.
  - intros xs. cbn beta. eapply typed_for_each with (Db := Db).
    intros x Hx. eapply typed_context; [apply Hb|].
    intros p [Heq|Hp]; [subst p|].
    + apply in_or_app. left. apply in_map_iff. eauto.
    + apply in_or_app. right. exact Hp.
Qed.

Lemma typed_try {A} G (body handler : M A) cls D1 D2 :
  typed G body D1 -> typed G handler D2 ->
  typed G (try_except body cls handler) (fun _ => []).
Proof.
  intros Hb Hh. eapply spec_try; [exact Hb | exact Hh | | |]; cbn beta.
  - intros a evs H G0 HG. destruct (H G0 HG). split; auto. intros x [].
  - intros e evs _ H G0 HG. destruct (H G0 HG). auto.
  - intros e evs1 o evs2 _ H1 H2 G0 HG.
    destruct (H1 G0 HG) as [Hwk1 _].
    destruct (H2 (provenance G0 evs1)) as [Hwk2 _].
    { eapply incl_tran; [exact HG | apply provenance_incl]. }
    rewrite well_kinded_app, Hwk1, Hwk2. split; auto.
    destruct o; auto. intros x [].
Qed.

Lemma typed_run G (m : M unit) D w :
  typed G m D -> well_kinded G (snd (snd (m (start w)))) = true.
Proof.
  intros H. unfold start. destruct (H w []) as (evs & Ht & Hwk).
  destruct (Hwk G (incl_refl G)) as [Hwk' _].
  rewrite Ht. exact Hwk'.
Qed.
End Typing.

Ltac in_ctx := solve [cbn [In app]; eauto 60].

(** Types a program written with the combinators, looking up each
    receiver in the context of kinds gathered so far. *)
Ltac typing :=
  lazymatch goal with
  | |- typed _ (ret _) _ => apply typed_ret
  | |- typed _ (for_in _ _ _) _ =>
      eapply typed_for_in; [in_ctx | reflexivity | intros; typing]
  | |- typed _ (try_except _ _ _) _ => eapply typed_try; typing
  | |- typed _ (call _ (StaticCall _ _) _) _ => apply typed_connect
  | |- typed _ (call _ (Method _ _) _) _ => eapply typed_method; [in_ctx | reflexivity]
  | |- typed _ (call _ (GetAttr _ _) _) _ => eapply typed_getattr; [in_ctx | reflexivity]
  | |- typed _ (call _ (Builtin _) _) _ => apply typed_builtin; reflexivity
  | |- typed _ (bind _ _) _ => eapply typed_bind; [typing | intros; cbn [app]; typing]
  end.

Ltac unfold_module :=
  unfold Search.__call__, Search.simple, Search.squery, Search.limit,
    Search.ryow, Search.highlight, Search.sort, Search.facets, Search.fields,
    Search.simpleresult, Search.simplefacetresult,
    method, static, getattr, builtin.

(** Every run of the module is well kinded: each call goes to the runtime,
    to [Cluster.connect], or to an object received earlier from the
    library, through a member listed in [follow] for its kind. *)
Lemma module_well_kinded {W} (lib : Library W) (w : W) :
  well_kinded [] (snd (run lib w)) = true.
Proof.
  unfold run. cbn [snd].
  eapply typed_run with (D := fun _ => []).
  unfold_module. typing.
Qed.

(** * What the module asks of the library *)

Definition is_search (ev : event) : bool :=
  match ev_target ev with
  | Method _ meth => meth =? "search_query"
  | _ => false
  end.

(** The classes a value names, outermost first: those it constructs and
    those it takes a member of. *)
Fixpoint classes_of (v : pyval) : list string :=
  match v with
  | VList xs => flat_map classes_of xs
  | VDict kvs => flat_map (fun kv => classes_of (snd kv)) kvs
  | VNew cls args kwargs =>
      cls :: flat_map classes_of args
          ++ flat_map (fun kv => classes_of (snd kv)) kwargs
  | VChain recv _ args => classes_of recv ++ flat_map classes_of args
  | VMember cls _ => [cls]
  | VInt _ | VStr _ | VObj _ => []
  end.

(** The query classes of the table at lines 98-116 that answer to the
    kinds of query expression the interface description enumerates:
    query-string, match, phrase, prefix, regex, the three ranges,
    conjunction and disjunction, wildcard, doc-id, boolean-field,
    match-all, match-none, geo-bounding-box, geo-distance. *)
Definition query_classes : list string :=
  ["QueryStringQuery"; "MatchQuery"; "MatchPhraseQuery"; "PhraseQuery";
   "PrefixQuery"; "RegexQuery"; "TermRangeQuery"; "NumericRangeQuery";
   "DateRangeQuery"; "ConjunctionQuery"; "DisjunctionQuery"; "WildcardQuery";
   "DocIdQuery"; "BooleanFieldQuery"; "MatchAllQuery"; "MatchNoneQuery";
   "GeoBoundingBoxQuery"; "GeoDistanceQuery"].

(** Value classes of the library that are not query expressions. *)
Definition support_classes : list string :=
  ["ClusterOptions"; "PasswordAuthenticator"; "SearchOptions"; "HighlightStyle";
   "SortScore"; "SortField"; "TermFacet"; "MutationState"].

Definition names_index_and_query (ev : event) : bool :=
  match ev_args ev with
  | VStr _ :: VNew cls _ _ :: _ => mem cls query_classes
  | _ => false
  end.

Definition search_request_check (ev : event) : bool :=
  (if is_search ev then names_index_and_query ev else true)
  && forallb (fun cls => mem cls query_classes || mem cls support_classes)
       (flat_map classes_of (ev_args ev)).

Lemma mem_In s l : mem s l = true <-> In s l.
Proof.
  unfold mem. rewrite existsb_exists. split.
  - intros (x & Hx & Heq). apply String.eqb_eq in Heq. subst. exact Hx.
  - intros H. exists s. split; auto. apply String.eqb_refl.
Qed.

Section Requests.
Context {W : Type} (lib : Library W).

Lemma module_search_requests :
  always (audited search_request_check) (Search.__call__ lib).
Proof. unfold_module. audit. Qed.

Lemma module_blocking :
  always (audited blocking_call) (Search.__call__ lib).
Proof. unfold_module. audit. Qed.
End Requests.

Lemma audited_run {W} (lib : Library W) (w : W) p :
  always (audited p) (Search.__call__ lib) ->
  forall ev, In ev (snd (run lib w)) -> p ev = true.
Proof.
  intros H ev Hin.
  pose proof (always_run (audited p) (Search.__call__ lib) w H) as Hall.
  unfold audited in Hall. rewrite Forall_forall in Hall. apply Hall. exact Hin.
Qed.

(** C1: in every run, against any library, each search request names the
    index by a string in first position and passes in second position a
    query expression built by one of the enumerated query classes; and
    every value object the module constructs anywhere is either of such a
    query class or one of the library's option, highlight, sort, facet,
    credential or mutation-state classes, so no query of another kind is
    ever built. *)
Theorem search_requests_give_index_and_query :
  forall {W} (lib : Library W) (w : W) (ev : event),
    In ev (snd (run lib w)) ->
    (is_search ev = true ->
       exists index cls qargs qkwargs rest,
         ev_args ev = VStr index :: VNew cls qargs qkwargs :: rest /\
         In cls query_classes) /\
    (forall cls, In cls (flat_map classes_of (ev_args ev)) ->
       In cls query_classes \/ In cls support_classes).
Proof.
  intros W lib w ev Hin.
  pose proof (audited_run lib w _ (module_search_requests lib) ev Hin) as H.
  unfold search_request_check in H. apply andb_true_iff in H. destruct H as [Hs Hc].
  split.
  - intros His. rewrite His in Hs. unfold names_index_and_query in Hs.
    destruct (ev_args ev) as [|[] [|[] rest]]; try discriminate.
    apply mem_In in Hs. eauto 10.
  - intros cls Hcls. rewrite forallb_forall in Hc. specialize (Hc cls Hcls).
    apply orb_true_iff in Hc. destruct Hc as [Hc|Hc]; apply mem_In in Hc; auto.
Qed.

Ltac pick_event := vm_compute; repeat (first [left; reflexivity | right]).

(** The first search request of a complete run. *)
Definition first_search : event :=
  {| ev_target := Method 0 "search_query";
     ev_args := [VStr "index"; QueryStringQuery "query"];
     ev_reply := Returned 3 |}.

Lemma search_requests_give_index_and_query_witness :
  In first_search (snd (run fresh_lib 0)) /\
  ((is_search first_search = true ->
      exists index cls qargs qkwargs rest,
        ev_args first_search = VStr index :: VNew cls qargs qkwargs :: rest /\
        In cls query_classes) /\
   (forall cls, In cls (flat_map classes_of (ev_args first_search)) ->
      In cls query_classes \/ In cls support_classes)).
Proof.
  split.
  - pick_event.
  - apply (search_requests_give_index_and_query fresh_lib 0 first_search). pick_event.
Defined.

(** ** What a completed run must contain

    A projection [g] reads from each event a list of items of interest
    (the search it issues, the options it sets).  Outside loops the module
    is straight-line code, so the projection of a run that returns
    normally is fixed in advance. *)

Section Projection.
Context {W : Type} (lib : Library W) {X : Type} (g : event -> list X).

Definition proj (t : trace) : list X := flat_map g t.

Lemma proj_app t1 t2 : proj (t1 ++ t2) = proj t1 ++ proj t2.
Proof. apply flat_map_app. Qed.

(** Nothing of interest is emitted, however the program ends. *)
Definition silent {A} (m : @M W A) : Prop := always (fun evs => proj evs = []) m.

(** Exactly [l] is emitted, however the program ends. *)
Definition exact {A} (l : list X) (m : @M W A) : Prop :=
  spec m (fun _ evs => proj evs = l).

(** Exactly [l] is emitted when the program returns normally, and an
    initial part of [l] when it raises. *)
Definition yields {A} (l : list X) (m : @M W A) : Prop :=
  spec m (fun o evs =>
    match o with
    | Ok _ => proj evs = l
    | Raise _ => exists rest, l = proj evs ++ rest
    end).

Lemma silent_nil : proj [] = [].
Proof. reflexivity. Qed.

Lemma silent_app t1 t2 : proj t1 = [] -> proj t2 = [] -> proj (t1 ++ t2) = [].
Proof. intros H1 H2. rewrite proj_app, H1, H2. reflexivity. Qed.

Lemma silent_one ev : g ev = [] -> proj [ev] = [].
Proof. intros H. cbn. rewrite H. reflexivity. Qed.

Lemma exact_silent {A} (m : M A) : silent m -> exact [] m.
Proof. intros H. exact H. Qed.

Lemma exact_call_then {A} c args (k : obj -> M A) l :
  (forall r, g {| ev_target := c; ev_args := args; ev_reply := r |} = l) ->
  (forall v, silent (k v)) ->
  exact l (bind (call lib c args) k).
Proof.
  intros Hg Hk.
  eapply spec_bind with
    (Phi1 := fun _ evs => proj evs = l) (Phi2 := fun _ _ evs => proj evs = []).
  - apply spec_call; intros; cbn; rewrite Hg; apply app_nil_r.
  - intros v. apply Hk.
  - cbn beta. intros a evs1 o evs2 H1 H2. rewrite proj_app, H1, H2. apply app_nil_r.
  - cbn beta. auto.
Qed.

Lemma exact_try {A} (body handler : M A) cls l :
  exact l body -> silent handler -> exact l (try_except body cls handler).
Proof.
  intros Hb Hh.
  eapply spec_try with
    (Phi1 := fun _ evs => proj evs = l) (Phi2 := fun _ evs => proj evs = []);
    [exact Hb | exact Hh | | |]; cbn beta; auto.
  intros e evs1 o evs2 _ H1 H2. rewrite proj_app, H1, H2. apply app_nil_r.
Qed.

Lemma yields_exact {A} (m : M A) l : exact l m -> yields l m.
Proof.
  intros H. eapply spec_weaken; [exact H|]. cbn beta. intros [a|e] evs Hl; auto.
  exists []. rewrite app_nil_r. auto.
Qed.

Lemma yields_call c args l :
  (forall r, g {| ev_target := c; ev_args := args; ev_reply := r |} = l) ->
  yields l (call lib c args).
Proof.
  intros Hg. apply spec_call; cbn; intros; rewrite Hg, app_nil_r; auto.
  exists []. rewrite app_nil_r. auto.
Qed.

Lemma yields_bind {A B} (m : M A) (k : A -> M B) l1 l2 :
  yields l1 m -> (forall a, yields l2 (k a)) -> yields (l1 ++ l2) (bind m k).
Proof.
  intros Hm Hk.
  eapply spec_bind with
    (Phi2 := fun _ o evs =>
       match o with
       | Ok _ => proj evs = l2
       | Raise _ => exists rest, l2 = proj evs ++ rest
       end);
    [exact Hm | exact Hk | |]; cbn beta.
  - intros a evs1 [b|e] evs2 H1 H2; rewrite proj_app, H1.
    + rewrite H2. reflexivity.
    + destruct H2 as (rest & ->). exists rest. rewrite app_assoc. reflexivity.
  - intros e evs (rest & ->). exists (rest ++ l2). rewrite app_assoc. reflexivity.
Qed.

Lemma yields_eq {A} (m : M A) l l' : yields l m -> l = l' -> yields l' m.
Proof. intros H <-. exact H. Qed.

Lemma yields_run (m : M unit) l w :
  yields l m ->
  (exists rest, l = proj (snd (snd (m (start w)))) ++ rest) /\
  (fst (m (start w)) = Ok tt -> proj (snd (snd (m (start w)))) = l).
Proof.
  intros H. unfold start. destruct (H w []) as (evs & Ht & Hl).
  rewrite Ht. cbn [app]. split.
  - destruct (fst (m _)); auto.
    exists []. rewrite app_nil_r. auto.
  - intros Hok. rewrite Hok in Hl. exact Hl.
Qed.
End Projection.

(** Proves [silent g m] when [g] is empty on every call site of [m]. *)
Ltac hush :=
  match goal with
  | |- silent ?g _ =>
      unfold silent;
      pose proof (silent_nil g);
      pose proof (silent_app g);
      walk; try (apply silent_one; reflexivity)
  end.

(** Computes the projection of a straight-line program; loops and the
    handler must be silent. *)
Ltac project :=
  lazymatch goal with
  | |- yields _ _ (ret _) => apply yields_exact, exact_silent; hush
  | |- yields _ _ (for_in _ _ _) => apply yields_exact, exact_silent; hush
  | |- yields _ _ (try_except _ _ _) =>
      apply yields_exact, exact_try;
      [ first [ solve [apply exact_silent; hush]
              | eapply exact_call_then; [intros; lazy; reflexivity | intros; hush] ]
      | hush ]
  | |- yields _ _ (call _ _ _) => eapply yields_call; intros; lazy; reflexivity
  | |- yields _ _ (bind _ _) => eapply yields_bind; [project | intros; project]
  end.

(** ** Reading the provenance of a receiver back from the trace *)

Lemma well_kinded_at G t pre ev post :
  well_kinded G t = true -> t = pre ++ ev :: post ->
  justified (provenance G pre) ev = true.
Proof.
  intros Hwk ->. rewrite well_kinded_app in Hwk.
  apply andb_true_iff in Hwk. destruct Hwk as [_ Hwk]. cbn in Hwk.
  apply andb_true_iff in Hwk. tauto.
Qed.

Lemma justified_receiver G r a :
  existsb (allowed a) (kinds_of G r) = true ->
  exists K K', In (r, K) G /\ follow K a = Some K'.
Proof.
  intros H. apply existsb_exists in H. destruct H as (K & HK & Ha).
  apply In_kinds_of in HK. unfold allowed in Ha.
  destruct (follow K a) as [K'|] eqn:Hf; [|discriminate]. eauto.
Qed.

Lemma follow_never_cluster K a : follow K a <> Some KCluster.
Proof.
  destruct K, a; cbn;
    repeat match goal with
           | |- context [if ?b then _ else _] => destruct b
           end; discriminate.
Qed.

Lemma follow_search_query K K' :
  follow K (ByCall "search_query") = Some K' -> K = KCluster.
Proof. destruct K; cbn; intros H; try discriminate; reflexivity. Qed.

(** Only [Cluster.connect] makes a cluster. *)
Lemma cluster_origin G t v :
  In (v, KCluster) (provenance G t) ->
  In (v, KCluster) G \/
  exists args,
    In {| ev_target := StaticCall "Cluster" "connect"; ev_args := args;
          ev_reply := Returned v |} t.
Proof.
  revert G. induction t as [|ev t IH]; intros G Hin; cbn in Hin; auto.
  apply IH in Hin. destruct Hin as [Hin|(args & Hin)].
  - apply in_app_or in Hin. destruct Hin as [Hin|Hin]; auto.
    right. destruct ev as [c args r]. unfold produced in Hin. cbn [ev_target ev_reply] in Hin.
    destruct c as [cls meth|recv meth|recv name|it|name], r as [v'|xs|e];
      try contradiction;
      try (apply In_results in Hin; destruct Hin as (K & _ & Hf & _);
           exfalso; exact (follow_never_cluster _ _ Hf)).
    destruct (is_connect cls meth) eqn:Hc; [|contradiction].
    destruct Hin as [Heq|[]]. inversion Heq; subst v'.
    unfold is_connect in Hc. apply andb_true_iff in Hc. destruct Hc as [Hc1 Hc2].
    apply String.eqb_eq in Hc1, Hc2. subst cls meth.
    exists args. left. reflexivity.
  - right. exists args. right. exact Hin.
Qed.

(** ** Counting the search requests *)

Definition search_site (ev : event) : list unit :=
  if is_search ev then [tt] else [].

Definition search_calls (t : trace) : nat := List.length (proj search_site t).

Lemma module_search_sites {W} (lib : Library W) :
  yields search_site (repeat tt 8) (Search.__call__ lib).
Proof.
  eapply yields_eq.
  - unfold_module. project.
  - reflexivity.
Qed.

(** C9 as amended: in every run, against any library, the receiver of
    each [search_query] call is the object that [Cluster.connect] returned
    earlier in that run; it is never reached through the bucket or the
    collection.  The file holds eight such calls: no run issues more than
    eight, and a run that returns normally issues exactly eight. *)
Theorem searches_are_issued_on_the_cluster :
  forall {W} (lib : Library W) (w : W) (pre post : trace) (ev : event),
    snd (run lib w) = pre ++ ev :: post ->
    is_search ev = true ->
    (exists cluster cargs,
        ev_target ev = Method cluster "search_query" /\
        In {| ev_target := StaticCall "Cluster" "connect"; ev_args := cargs;
              ev_reply := Returned cluster |} pre) /\
    search_calls (snd (run lib w)) <= 8 /\
    (fst (run lib w) = Ok tt -> search_calls (snd (run lib w)) = 8).
Proof.
  intros W lib w pre post ev Ht Hs. split.
  - pose proof (well_kinded_at _ _ _ _ _ (module_well_kinded lib w) Ht) as Hj.
    unfold is_search in Hs. unfold justified in Hj.
    destruct (ev_target ev) as [| r m | | |]; try discriminate.
    apply String.eqb_eq in Hs. subst m.
    apply justified_receiver in Hj. destruct Hj as (K & K' & Hin & Hf).
    apply follow_search_query in Hf. subst K.
    apply cluster_origin in Hin. destruct Hin as [[]|(cargs & Hin)].
    exists r, cargs. auto.
  - unfold run, search_calls. cbn [fst snd].
    destruct (yields_run search_site _ _ w (module_search_sites lib)) as [(rest & Hrest) Hok].
    split.
    + apply (f_equal (@List.length unit)) in Hrest. rewrite List.length_app in Hrest.
      cbn in Hrest. lia.
    + intros H. rewrite (Hok H). reflexivity.
Qed.

(** The last search request of a complete run, with what precedes it. *)
Definition last_search : event :=
  {| ev_target := Method 0 "search_query";
     ev_args := [VStr "index"; QueryStringQuery "query";
                 SearchOptions [("fields", VList [VStr "field1"; VStr "field2"])]];
     ev_reply := Returned 47 |}.

Lemma searches_are_issued_on_the_cluster_witness :
  (exists cluster cargs,
      ev_target last_search = Method cluster "search_query" /\
      In {| ev_target := StaticCall "Cluster" "connect"; ev_args := cargs;
            ev_reply := Returned cluster |} (firstn 45 (snd (run fresh_lib 0)))) /\
  search_calls (snd (run fresh_lib 0)) <= 8 /\
  (fst (run fresh_lib 0) = Ok tt -> search_calls (snd (run fresh_lib 0)) = 8).
Proof.
  apply (searches_are_issued_on_the_cluster fresh_lib 0
           (firstn 45 (snd (run fresh_lib 0))) (skipn 46 (snd (run fresh_lib 0)))
           last_search).
  - vm_compute. reflexivity.
  - reflexivity.
Defined.

(** C9 as stated counts seven search calls; a complete run issues eight,
    one for each of the snippets simple, squery, limit, ryow, highlight,
    sort, facets and fields. *)
Lemma complete_run_issues_eight_searches :
  fst (run fresh_lib 0) = Ok tt /\ search_calls (snd (run fresh_lib 0)) <> 7.
Proof. split; [reflexivity | vm_compute; discriminate]. Qed.

(** * Search options *)

(** The option names of the table at lines 127-137, with the two keyword
    spellings [highlight_style] and [highlight_fields] under which the
    source sets the highlight option. *)
Definition option_names : list string :=
  ["limit"; "skip"; "explain"; "scan_consistency"; "consistent_with";
   "highlight"; "highlight_style"; "highlight_fields"; "sort"; "facets";
   "fields"; "serializer"; "raw"].

Definition is_str (v : pyval) : bool :=
  match v with VStr _ => true | _ => false end.

Definition is_new_of (classes : list string) (v : pyval) : bool :=
  match v with VNew cls _ _ => mem cls classes | _ => false end.

(** The shape of the value given for an option: integers for [skip] and
    [limit], a member of [HighlightStyle], lists of field names, a list of
    sort specifications, a map from facet name to facet, and for
    [consistent_with] a mutation state fed with one mutation result. *)
Definition option_value_ok (name : string) (v : pyval) : bool :=
  if mem name ["skip"; "limit"] then
    match v with VInt _ => true | _ => false end
  else if name =? "highlight_style" then
    match v with VMember cls _ => cls =? "HighlightStyle" | _ => false end
  else if mem name ["highlight_fields"; "fields"] then
    match v with VList xs => forallb is_str xs | _ => false end
  else if name =? "sort" then
    match v with VList xs => forallb (is_new_of ["SortScore"; "SortField"]) xs | _ => false end
  else if name =? "facets" then
    match v with
    | VDict kvs => forallb (fun kv => is_new_of ["TermFacet"] (snd kv)) kvs
    | _ => false
    end
  else if name =? "consistent_with" then
    match v with
    | VChain (VNew cls [] []) meth [VObj _] =>
        (cls =? "MutationState") && (meth =? "add_results")
    | _ => false
    end
  else true.

Definition keyword_ok (kv : string * pyval) : bool :=
  mem (fst kv) option_names && option_value_ok (fst kv) (snd kv).

(** An options bundle: [SearchOptions(k=v, ...)], possibly followed by one
    option set through a method, [SearchOptions(k=v, ...).name(v)]. *)
Definition options_bundle (o : pyval) : bool :=
  match o with
  | VNew cls [] kwargs => (cls =? "SearchOptions") && forallb keyword_ok kwargs
  | VChain (VNew cls [] kwargs) meth margs =>
      (cls =? "SearchOptions") && forallb keyword_ok kwargs
      && mem meth option_names && forallb (option_value_ok meth) margs
  | _ => false
  end.

(** The option names a search request sets, in the order written. *)
Definition options_set (ev : event) : list string :=
  if is_search ev then
    match ev_args ev with
    | [_; _; VNew _ _ kwargs] => map fst kwargs
    | [_; _; VChain (VNew _ _ kwargs) meth _] => map fst kwargs ++ [meth]
    | _ => []
    end
  else [].

Fixpoint indexed_from {A} (start : nat) (l : list A) : list (nat * A) :=
  match l with
  | [] => []
  | x :: l' => (start, x) :: indexed_from (S start) l'
  end.

Definition indexed {A} (l : list A) : list (nat * A) := indexed_from 0 l.

Definition options_check (ev : event) : bool :=
  forallb (fun ia =>
             if mem "SearchOptions" (classes_of (snd ia))
             then is_search ev && Nat.eqb (fst ia) 2 && options_bundle (snd ia)
             else true)
          (indexed (ev_args ev)).

Lemma In_indexed_from {A} (l : list A) a start :
  In a l ->
  exists i, In (start + i, a) (indexed_from start l) /\ nth_error l i = Some a.
Proof.
  revert start. induction l as [|x l IH]; intros start Hin; [contradiction|].
  destruct Hin as [->|Hin].
  - exists 0. rewrite Nat.add_0_r. split; [left|]; reflexivity.
  - destruct (IH (S start) Hin) as (i & Hi & Hn).
    exists (S i). rewrite Nat.add_succ_r. split; [right; exact Hi | exact Hn].
Qed.

Lemma module_options {W} (lib : Library W) :
  always (audited options_check) (Search.__call__ lib).
Proof. unfold_module. audit. Qed.

Lemma module_options_set {W} (lib : Library W) :
  yields options_set
    ["fields"; "skip"; "limit"; "consistent_with"; "highlight_style";
     "highlight_fields"; "sort"; "facets"; "fields"]
    (Search.__call__ lib).
Proof.
  eapply yields_eq.
  - unfold_module. project.
  - reflexivity.
Qed.

(** C4: in every run, against any library, a value that involves
    [SearchOptions] occurs only as the third argument of a search request
    and is an options bundle: the [SearchOptions] constructor with keyword
    arguments, or one method called on it, where every keyword and method
    is one of the listed option names and its value has the shape the
    option takes.  A run that returns normally sets, in this order:
    fields; skip and limit; consistent_with; highlight_style and
    highlight_fields; sort; facets; fields. *)
Theorem options_use_only_listed_names :
  forall {W} (lib : Library W) (w : W),
    (forall ev a,
        In ev (snd (run lib w)) -> In a (ev_args ev) ->
        In "SearchOptions" (classes_of a) ->
        is_search ev = true /\ nth_error (ev_args ev) 2 = Some a /\
        options_bundle a = true) /\
    (fst (run lib w) = Ok tt ->
     proj options_set (snd (run lib w)) =
       ["fields"; "skip"; "limit"; "consistent_with"; "highlight_style";
        "highlight_fields"; "sort"; "facets"; "fields"]).
Proof.
  intros W lib w. split.
  - intros ev a Hev Ha Hso.
    pose proof (audited_run lib w _ (module_options lib) ev Hev) as H.
    unfold options_check in H. rewrite forallb_forall in H.
    destruct (In_indexed_from (ev_args ev) a 0 Ha) as (i & Hi & Hn).
    specialize (H _ Hi). cbn [fst snd] in H.
    apply mem_In in Hso. rewrite Hso in H.
    apply andb_true_iff in H. destruct H as [H Hb].
    apply andb_true_iff in H. destruct H as [Hs Hi2].
    apply Nat.eqb_eq in Hi2. cbn in Hi2. subst i. auto.
  - apply (yields_run options_set _ _ w (module_options_set lib)).
Qed.

Lemma options_use_only_listed_names_witness :
  (is_search last_search = true /\
   nth_error (ev_args last_search) 2 =
     Some (SearchOptions [("fields", VList [VStr "field1"; VStr "field2"])]) /\
   options_bundle (SearchOptions [("fields", VList [VStr "field1"; VStr "field2"])]) = true) /\
  proj options_set (snd (run fresh_lib 0)) =
    ["fields"; "skip"; "limit"; "consistent_with"; "highlight_style";
     "highlight_fields"; "sort"; "facets"; "fields"].
Proof.
  destruct (options_use_only_listed_names fresh_lib 0) as [Hall Hok]. split.
  - apply (Hall last_search).
    + pick_event.
    + right; right; left; reflexivity.
    + left; reflexivity.
  - apply Hok. reflexivity.
Defined.

(** * The surface of the results *)

Definition access_of (c : callee) : option (obj * access) :=
  match c with
  | Method r m => Some (r, ByCall m)
  | GetAttr r n => Some (r, ByAttr n)
  | Iterate it => Some (it, ByIter)
  | StaticCall _ _ | Builtin _ => None
  end.

(** Members used on the cluster, the bucket and the collection. *)
Definition session_surface : list (kind * access) :=
  [ (KCluster, ByCall "bucket"); (KCluster, ByCall "search_query");
    (KBucket, ByCall "default_collection"); (KCollection, ByCall "upsert") ].

(** Members read from a search result: the hit rows with their id, score
    and fields; the facets with their name and total; the metadata with
    the total row count of its metrics. *)
Definition result_surface : list (kind * access) :=
  [ (KResult, ByCall "rows"); (KResult, ByCall "hits");
    (KResult, ByCall "facets"); (KResult, ByCall "metadata");
    (KRows, ByIter); (KHits, ByIter); (KFacets, ByIter);
    (KRow, ByCall "score"); (KRow, ByCall "id"); (KRow, ByCall "fields");
    (KHit, ByAttr "id"); (KHit, ByAttr "score");
    (KFacet, ByAttr "name"); (KFacet, ByAttr "total");
    (KMetaData, ByCall "metrics"); (KMetrics, ByCall "total_rows") ].

(** The result surface in two parts: what is read of hit rows and facets,
    and the chain that leads to the total row count. *)
Definition hit_and_facet_surface : list (kind * access) :=
  [ (KResult, ByCall "rows"); (KResult, ByCall "hits"); (KResult, ByCall "facets");
    (KRows, ByIter); (KHits, ByIter); (KFacets, ByIter);
    (KRow, ByCall "score"); (KRow, ByCall "id"); (KRow, ByCall "fields");
    (KHit, ByAttr "id"); (KHit, ByAttr "score");
    (KFacet, ByAttr "name"); (KFacet, ByAttr "total") ].

Definition total_rows_surface : list (kind * access) :=
  [ (KResult, ByCall "metadata"); (KMetaData, ByCall "metrics");
    (KMetrics, ByCall "total_rows") ].

Ltac split_names :=
  repeat match goal with
         | H : (if ?b then _ else _) = Some _ |- _ => destruct b eqn:?; try discriminate H
         | H : (_ =? _) = true |- _ => apply String.eqb_eq in H; subst
         | H : mem _ _ = true |- _ => apply mem_In in H; cbn [In] in H
         | H : _ \/ _ |- _ => destruct H; subst
         | H : False |- _ => destruct H
         end.

Lemma follow_surface K a K' :
  follow K a = Some K' -> In (K, a) session_surface \/ In (K, a) result_surface.
Proof.
  intros H. destruct K, a; cbn [follow] in H; try discriminate H; split_names;
    first [ left; unfold session_surface; cbn [In]; tauto
          | right; unfold result_surface; cbn [In]; tauto ].
Qed.

(** The reads a trace makes, by kind of receiver. *)
Fixpoint reads (G : kenv) (t : trace) : list (kind * access) :=
  match t with
  | [] => []
  | ev :: t' =>
      match access_of (ev_target ev) with
      | Some (r, a) => map (fun K => (K, a)) (filter (allowed a) (kinds_of G r))
      | None => []
      end ++ reads (produced G ev ++ G) t'
  end.

(** The call that fetches the rows of the first result in a complete run. *)
Definition first_rows : event :=
  {| ev_target := Method 3 "rows"; ev_args := []; ev_reply := Returned 4 |}.

(** * Pass-through into the client library *)

Definition imported_from_couchbase (name : string) : bool :=
  existsb (fun im => String.prefix "couchbase" (fst im) && mem name (snd im)) imports.

(** The event handed the object [v] to the module. *)
Definition hands_out (ev : event) (v : obj) : Prop :=
  ev_reply ev = Returned v \/ exists xs, ev_reply ev = Yielded xs /\ In v xs.

Definition is_library_call (ev : event) : bool :=
  match ev_target ev with
  | Builtin _ => false
  | _ => true
  end.

Lemma provenance_origin G t v K :
  In (v, K) (provenance G t) ->
  In (v, K) G \/
  exists ev, In ev t /\ hands_out ev v /\ is_library_call ev = true.
Proof.
  revert G. induction t as [|ev t IH]; intros G Hin; cbn in Hin; auto.
  apply IH in Hin. destruct Hin as [Hin|(ev' & Hin & Hh)].
  - apply in_app_or in Hin. destruct Hin as [Hin|Hin]; auto.
    right. exists ev. split; [left; reflexivity|].
    destruct ev as [c args r]. unfold produced in Hin.
    unfold hands_out, is_library_call. cbn [ev_target ev_reply] in *.
    destruct c as [cls meth|recv meth|recv name|it|name], r as [v'|xs|e];
      try contradiction;
      try (apply In_results in Hin; destruct Hin as (K0 & _ & _ & Hv)).
    + destruct (is_connect cls meth); [|contradiction].
      destruct Hin as [Heq|[]]. inversion Heq. auto.
    + destruct Hv as [->|[]]. auto.
    + destruct Hv as [->|[]]. auto.
    + split; auto. right. eauto.
  - right. exists ev'. split; [right; exact Hin | exact Hh].
Qed.

Definition pass_through_check (ev : event) : bool :=
  match ev_target ev with
  | StaticCall cls _ => imported_from_couchbase cls
  | _ => true
  end
  && forallb imported_from_couchbase (flat_map classes_of (ev_args ev)).

Lemma module_pass_through {W} (lib : Library W) :
  always (audited pass_through_check) (Search.__call__ lib).
Proof. unfold_module. audit. Qed.

(** C7: in every run, against any library, each event is one of three
    things.  A call on a class, and then the class is imported from the
    couchbase package (the connection).  A method call, attribute read or
    iteration, and then its receiver is an object that an earlier library
    call of the same run handed to the module (bucket, collection, search,
    results).  Or a call of the Python runtime: print, logging, traceback
    and string formatting.  Every value object built for an argument is of
    a class imported from the couchbase package.  The module itself
    defines one class, [Search], with the one method [__call__]. *)
Theorem operations_pass_through_to_couchbase :
  forall {W} (lib : Library W) (w : W) (pre post : trace) (ev : event),
    snd (run lib w) = pre ++ ev :: post ->
    match ev_target ev with
    | StaticCall cls _ => imported_from_couchbase cls = true
    | Method r _ | GetAttr r _ | Iterate r =>
        exists ev', In ev' pre /\ hands_out ev' r /\ is_library_call ev' = true
    | Builtin name => In name runtime_names
    end /\
    Forall (fun cls => imported_from_couchbase cls = true)
           (flat_map classes_of (ev_args ev)) /\
    definitions = [("Search", ["__call__"])].
Proof.
  intros W lib w pre post ev Ht.
  assert (Hin : In ev (snd (run lib w))).
  { rewrite Ht. apply in_or_app. right. left. reflexivity. }
  pose proof (audited_run lib w _ (module_pass_through lib) ev Hin) as Hp.
  unfold pass_through_check in Hp. apply andb_true_iff in Hp. destruct Hp as [Hs Hc].
  pose proof (well_kinded_at _ _ _ _ _ (module_well_kinded lib w) Ht) as Hj.
  unfold justified in Hj.
  split; [|split; [apply Forall_forall; rewrite forallb_forall in Hc; exact Hc | reflexivity]].
  destruct (ev_target ev) as [cls meth | r m | r n | it | name].
  - exact Hs.
  - apply justified_receiver in Hj. destruct Hj as (K & K' & HK & _).
    apply provenance_origin in HK. destruct HK as [[]|HK]. exact HK.
  - apply justified_receiver in Hj. destruct Hj as (K & K' & HK & _).
    apply provenance_origin in HK. destruct HK as [[]|HK]. exact HK.
  - apply justified_receiver in Hj. destruct Hj as (K & K' & HK & _).
    apply provenance_origin in HK. destruct HK as [[]|HK]. exact HK.
  - apply mem_In. exact Hj.
Qed.

Lemma operations_pass_through_to_couchbase_witness :
  (exists ev', In ev' (firstn 4 (snd (run fresh_lib 0))) /\
               hands_out ev' 3 /\ is_library_call ev' = true) /\
  Forall (fun cls => imported_from_couchbase cls = true)
         (flat_map classes_of (ev_args first_rows)) /\
  definitions = [("Search", ["__call__"])].
Proof.
  apply (operations_pass_through_to_couchbase fresh_lib 0
           (firstn 4 (snd (run fresh_lib 0))) (skipn 5 (snd (run fresh_lib 0)))
           first_rows).
  vm_compute. reflexivity.
Defined.

(** * Read your own writes *)

(** A search request that asks to be consistent with earlier mutations. *)
Definition consistent_read (ev : event) : bool := mem "consistent_with" (options_set ev).

Definition upsert_event (collection : obj) (mutation_result : obj) : event :=
  {| ev_target := Method collection "upsert";
     ev_args := [VStr "key"; VDict []];
     ev_reply := Returned mutation_result |}.

(** Every consistent read comes directly after an upsert that returned,
    and is consistent with exactly the result of that upsert. *)
Definition ryow_ordered (t : trace) : Prop :=
  forall pre ev post,
    t = pre ++ ev :: post -> consistent_read ev = true ->
    exists pre' collection mutation_result,
      pre = pre' ++ [upsert_event collection mutation_result] /\
      ev_args ev =
        [VStr "index"; QueryStringQuery "query";
         VChain (SearchOptions []) "consistent_with"
           [VChain MutationState "add_results" [VObj mutation_result]]].

Lemma split_app {A} (t1 t2 pre post : list A) (x : A) :
  t1 ++ t2 = pre ++ x :: post ->
  (exists post1, t1 = pre ++ x :: post1 /\ post = post1 ++ t2) \/
  (exists pre2, pre = t1 ++ pre2 /\ t2 = pre2 ++ x :: post).
Proof.
  revert pre. induction t1 as [|y t1 IH]; intros pre H.
  - right. exists pre. auto.
  - destruct pre as [|p pre]; cbn in H; inversion H; subst.
    + left. exists t1. auto.
    + destruct (IH pre H2) as [(post1 & -> & ->)|(pre2 & -> & ->)].
      * left. exists post1. auto.
      * right. exists pre2. auto.
Qed.

Lemma ryow_ordered_nil : ryow_ordered [].
Proof. intros [|? ?] ev post H; discriminate H. Qed.

Lemma ryow_ordered_app t1 t2 :
  ryow_ordered t1 -> ryow_ordered t2 -> ryow_ordered (t1 ++ t2).
Proof.
  intros H1 H2 pre ev post Ht Hc.
  apply split_app in Ht. destruct Ht as [(post1 & Ht & _)|(pre2 & -> & Ht)].
  - exact (H1 _ _ _ Ht Hc).
  - destruct (H2 _ _ _ Ht Hc) as (pre' & c & mr & -> & Ha).
    exists (t1 ++ pre'), c, mr. rewrite app_assoc. auto.
Qed.

Lemma ryow_ordered_one ev : consistent_read ev = false -> ryow_ordered [ev].
Proof.
  intros Hc [|x [|? ?]] ev' post H Hc'; inversion H; subst. congruence.
Qed.

Definition ryow_search (cluster mutation_result : obj) (r : reply) : event :=
  {| ev_target := Method cluster "search_query";
     ev_args := [VStr "index"; QueryStringQuery "query";
                 VChain (SearchOptions []) "consistent_with"
                   [VChain MutationState "add_results" [VObj mutation_result]]];
     ev_reply := r |}.

Lemma ryow_snippet_ordered {W} (lib : Library W) cluster collection :
  always ryow_ordered (Search.ryow lib cluster collection).
Proof.
  unfold Search.ryow, method.
  eapply spec_bind with
    (Phi1 := fun o evs =>
       match o with
       | Ok mr => evs = [upsert_event collection mr]
       | Raise _ => ryow_ordered evs
       end)
    (Phi2 := fun mr _ evs => exists r, evs = [ryow_search cluster mr r]).
  - apply spec_call; intros; [reflexivity | apply ryow_ordered_one; reflexivity].
  - intros mr.
    eapply spec_bind with
      (Phi1 := fun _ evs => exists r, evs = [ryow_search cluster mr r])
      (Phi2 := fun _ _ evs => evs = []).
    + apply spec_call; intros; eexists; reflexivity.
    + intros _. apply spec_ret. reflexivity.
    + cbn beta. intros _ evs1 _ evs2 (r & ->) ->. exists r. reflexivity.
    + cbn beta. intros e evs (r & ->). exists r. reflexivity.
  - cbn beta. intros mr evs1 o evs2 -> (r & ->) pre ev post Ht Hc.
    destruct pre as [|x [|y pre]]; inversion Ht; subst.
    + discriminate Hc.
    + exists [], collection, mr. auto.
    + destruct pre; discriminate.
  - cbn beta. auto.
Qed.

Ltac walk_with tac :=
  unfold method, static, getattr, builtin;
  repeat (first [ tac | walk_step ]).

Lemma module_ryow_ordered {W} (lib : Library W) :
  always ryow_ordered (Search.__call__ lib).
Proof.
  pose proof ryow_ordered_nil as Hnil.
  pose proof ryow_ordered_app as Happ.
  unfold Search.__call__, Search.simple, Search.squery, Search.limit,
    Search.highlight, Search.sort, Search.facets, Search.fields,
    Search.simpleresult, Search.simplefacetresult.
  walk_with ltac:(apply ryow_snippet_ordered);
    apply ryow_ordered_one; reflexivity.
Qed.

Lemma follow_upsert K K' :
  follow K (ByCall "upsert") = Some K' -> K = KCollection.
Proof. destruct K; cbn; intros H; try discriminate; reflexivity. Qed.

Lemma consistent_read_is_search ev : consistent_read ev = true -> is_search ev = true.
Proof.
  unfold consistent_read, options_set. destruct (is_search ev); auto.
Qed.

(** C5: in every run, against any library, a search issued with the
    [consistent_with] option is the event right after an upsert that has
    returned; its options are [SearchOptions().consistent_with(state)]
    where [state] is [MutationState().add_results(r)] for the very result
    [r] of that upsert; the upsert went to a collection obtained from the
    connected cluster and the search goes to that cluster. *)
Theorem consistent_read_follows_its_write :
  forall {W} (lib : Library W) (w : W) (pre post : trace) (ev : event),
    snd (run lib w) = pre ++ ev :: post ->
    consistent_read ev = true ->
    exists pre' cluster collection mutation_result,
      pre = pre' ++ [upsert_event collection mutation_result] /\
      ev = ryow_search cluster mutation_result (ev_reply ev) /\
      In (collection, KCollection) (provenance [] pre') /\
      In (cluster, KCluster) (provenance [] pre').
Proof.
  intros W lib w pre post ev Ht Hc.
  pose proof (always_run ryow_ordered (Search.__call__ lib) w (module_ryow_ordered lib)) as Hord.
  destruct (Hord pre ev post Ht Hc) as (pre' & coll & mr & -> & Hargs).
  pose proof (module_well_kinded lib w) as Hwk.
  pose proof (well_kinded_at _ _ _ _ _ Hwk Ht) as Hj.
  assert (Ht' : snd (run lib w) = pre' ++ upsert_event coll mr :: ev :: post).
  { rewrite Ht, <- app_assoc. reflexivity. }
  pose proof (well_kinded_at _ _ _ _ _ Hwk Ht') as Hu.
  apply consistent_read_is_search in Hc. unfold is_search in Hc.
  destruct ev as [c args r]. cbn [ev_target ev_args ev_reply] in *.
  destruct c as [| cluster m | | |]; try discriminate.
  apply String.eqb_eq in Hc. subst m args.
  exists pre', cluster, coll, mr. split; [reflexivity|]. split; [reflexivity|].
  unfold justified in Hj, Hu. cbn [ev_target upsert_event] in Hj, Hu.
  apply justified_receiver in Hu. destruct Hu as (K & K' & Hin & Hf).
  apply follow_upsert in Hf. subst K. split; [exact Hin|].
  apply justified_receiver in Hj. destruct Hj as (K & K'' & Hc & Hf).
  apply follow_search_query in Hf. subst K.
  rewrite provenance_app in Hc. cbn [provenance] in Hc.
  apply in_app_or in Hc. destruct Hc as [Hc|Hc]; [|exact Hc].
  unfold produced in Hc. cbn [ev_target ev_reply upsert_event] in Hc.
  apply In_results in Hc. destruct Hc as (K & _ & Hf & _).
  exfalso. exact (follow_never_cluster _ _ Hf).
Qed.

Lemma consistent_read_follows_its_write_witness :
  exists pre' cluster collection mutation_result,
    firstn 41 (snd (run fresh_lib 0)) = pre' ++ [upsert_event collection mutation_result] /\
    ryow_search 0 42 (Returned 43) =
      ryow_search cluster mutation_result (ev_reply (ryow_search 0 42 (Returned 43))) /\
    In (collection, KCollection) (provenance [] pre') /\
    In (cluster, KCluster) (provenance [] pre').
Proof.
  apply (consistent_read_follows_its_write fresh_lib 0
           (firstn 41 (snd (run fresh_lib 0))) (skipn 42 (snd (run fresh_lib 0)))
           (ryow_search 0 42 (Returned 43))).
  - vm_compute. reflexivity.
  - reflexivity.
Defined.

(** * Exceptions *)

Definition raised (ev : event) : bool :=
  match ev_reply ev with Raised _ => true | _ => false end.

(** No call in the trace raised. *)
Definition quiet (t : trace) : Prop := Forall (fun ev => raised ev = false) t.

(** Code without a handler: either nothing raised and it returned, or the
    last call raised and the exception came out of it. *)
Definition plain {A} (o : outcome A) (evs : trace) : Prop :=
  match o with
  | Ok _ => quiet evs
  | Raise e => exists q ev, evs = q ++ [ev] /\ quiet q /\ ev_reply ev = Raised e
  end.

Lemma quiet_app t1 t2 : quiet t1 -> quiet t2 -> quiet (t1 ++ t2).
Proof. apply Forall_app_intro. Qed.

Lemma plain_app {A B} (a : A) (o : outcome B) evs1 evs2 :
  plain (Ok a) evs1 -> plain o evs2 -> plain o (evs1 ++ evs2).
Proof.
  intros H1 H2. destruct o as [b|e]; cbn in *.
  - apply quiet_app; auto.
  - destruct H2 as (q & ev & -> & Hq & Hr).
    exists (evs1 ++ q), ev. rewrite app_assoc. split; auto. split; auto.
    apply quiet_app; auto.
Qed.

Lemma spec_conj {W A} (m : @M W A) (Phi Psi : outcome A -> trace -> Prop) :
  spec m Phi -> spec m Psi -> spec m (fun o evs => Phi o evs /\ Psi o evs).
Proof.
  intros H1 H2 w t.
  destruct (H1 w t) as (evs1 & Ht1 & Hp1). destruct (H2 w t) as (evs2 & Ht2 & Hp2).
  rewrite Ht1 in Ht2. apply app_inv_head in Ht2. subst evs2.
  exists evs1. auto.
Qed.

Section Plain.
Context {W : Type} (lib : Library W).

Definition plainly {A} (m : @M W A) : Prop := spec m plain.

Lemma plainly_ret {A} (a : A) : plainly (ret a).
Proof. apply spec_ret. constructor. Qed.

Lemma plainly_call c args : plainly (call lib c args).
Proof.
  apply spec_call; intros; cbn.
  - repeat constructor.
  - exists [], {| ev_target := c; ev_args := args; ev_reply := Raised e |}.
    repeat split. constructor.
Qed.

Lemma plainly_iterate it : plainly (iterate lib it).
Proof.
  apply spec_iterate; intros; cbn.
  - repeat constructor.
  - exists [], {| ev_target := Iterate it; ev_args := []; ev_reply := Raised e |}.
    repeat split. constructor.
Qed.

Lemma plainly_bind {A B} (m : M A) (k : A -> M B) :
  plainly m -> (forall a, plainly (k a)) -> plainly (bind m k).
Proof.
  intros Hm Hk.
  eapply spec_bind with (Phi2 := fun _ => plain); [exact Hm | exact Hk | |].
  - intros a evs1 o evs2. apply plain_app.
  - auto.
Qed.

Lemma plainly_for_each xs (body : obj -> M unit) :
  (forall x, plainly (body x)) -> plainly (for_each xs body).
Proof.
  intros Hb. induction xs as [|x xs IH]; cbn [for_each].
  - apply plainly_ret.
  - apply plainly_bind; auto.
Qed.

Lemma plainly_for_in it (body : obj -> M unit) :
  (forall x, plainly (body x)) -> plainly (for_in lib it body).
Proof.
  intros Hb. unfold for_in. apply plainly_bind.
  - apply plainly_iterate.
  - intros xs. apply plainly_for_each; auto.
Qed.

(** The first event a program emits, however it goes on. *)
Definition opens {A} (first : reply -> event) (m : @M W A) : Prop :=
  spec m (fun _ evs => exists r rest, evs = first r :: rest).

Definition framed {A} (m : @M W A) : Prop := always (fun _ => True) m.

Lemma opens_call_bind {A} c args (k : obj -> M A) :
  (forall v, framed (k v)) ->
  opens (fun r => {| ev_target := c; ev_args := args; ev_reply := r |})
        (bind (call lib c args) k).
Proof.
  intros Hk.
  eapply spec_bind with
    (Phi1 := fun _ evs => exists r, evs = [{| ev_target := c; ev_args := args; ev_reply := r |}])
    (Phi2 := fun _ _ _ => True).
  - apply spec_call; intros; eexists; reflexivity.
  - intros v. apply Hk.
  - cbn beta. intros _ evs1 _ evs2 (r & ->) _. exists r, evs2. reflexivity.
  - cbn beta. intros _ evs (r & ->). exists r, []. reflexivity.
Qed.

Lemma opens_bind {A B} first (m : M A) (k : A -> M B) :
  opens first m -> (forall a, framed (k a)) -> opens first (bind m k).
Proof.
  intros Hm Hk.
  eapply spec_bind with (Phi2 := fun _ _ _ => True); [exact Hm | exact Hk | |].
  - cbn beta. intros _ evs1 _ evs2 (r & rest & ->) _. exists r, (rest ++ evs2). reflexivity.
  - cbn beta. auto.
Qed.
End Plain.

Ltac plainness :=
  unfold method, static, getattr, builtin;
  repeat first
    [ apply plainly_ret | apply plainly_for_in; intros | apply plainly_call
    | apply plainly_bind; [|intros] ].

Ltac framing :=
  match goal with
  | |- framed _ =>
      unfold framed;
      assert ((fun _ : trace => True) []) by exact I;
      assert (forall t1 t2 : trace, True -> True -> (fun _ : trace => True) (t1 ++ t2))
        by (intros; exact I);
      walk; try exact I
  end.

(** ** The one handler *)

Definition format_exc_event (r : reply) : event :=
  {| ev_target := Builtin "traceback.format_exc"; ev_args := []; ev_reply := r |}.

Definition logging_error_event (formatted : obj) (r : reply) : event :=
  {| ev_target := Builtin "logging.error"; ev_args := [VObj formatted]; ev_reply := r |}.

(** The request that opens the [squery] snippet, the statement after the
    [try] statement. *)
Definition squery_search (cluster : obj) (r : reply) : event :=
  {| ev_target := Method cluster "search_query";
     ev_args := [VStr "my-index-name"; PrefixQuery "airports-";
                 SearchOptions [("fields", VList [VStr "field-1"])]];
     ev_reply := r |}.

(** What the handler does: format the traceback and log it. *)
Definition handler_events (o : outcome unit) (h : trace) : Prop :=
  (exists e, o = Raise e /\ h = [format_exc_event (Raised e)]) \/
  (exists tb e, o = Raise e /\
     h = [format_exc_event (Returned tb); logging_error_event tb (Raised e)]) \/
  (exists tb v, o = Ok tt /\
     h = [format_exc_event (Returned tb); logging_error_event tb (Returned v)]).

(** The [try] statement of the [simple] snippet: either its body ran as
    plain code and any exception that came out is not a
    [CouchbaseException]; or a call of the body raised a
    [CouchbaseException] and the handler ran. *)
Definition simple_events (o : outcome unit) (evs : trace) : Prop :=
  (plain o evs /\ search_calls evs = 1 /\
   match o with
   | Ok _ => True
   | Raise e => isinstance e "CouchbaseException" = false
   end) \/
  (exists q ev e h,
      evs = q ++ ev :: h /\ quiet q /\ ev_reply ev = Raised e /\
      isinstance e "CouchbaseException" = true /\
      search_calls (q ++ [ev]) = 1 /\ handler_events o h).

(** What remains of a run once an exception has been caught. *)
Definition after_catch (o : outcome unit) (h : trace) : Prop :=
  (exists e, o = Raise e /\ h = [format_exc_event (Raised e)]) \/
  (exists tb e, o = Raise e /\
     h = [format_exc_event (Returned tb); logging_error_event tb (Raised e)]) \/
  (exists tb v cluster r rest,
     h = format_exc_event (Returned tb) :: logging_error_event tb (Returned v)
         :: squery_search cluster r :: rest /\
     plain o (squery_search cluster r :: rest)).

(** The two ways a run can go: no exception is caught, and one that comes
    out is not a [CouchbaseException] or does not come from the [try]
    block; or exactly one is caught. *)
Definition run_shape (o : outcome unit) (t : trace) : Prop :=
  (plain o t /\
   match o with
   | Ok _ => True
   | Raise e => isinstance e "CouchbaseException" = false \/ search_calls t <> 1
   end) \/
  (exists q ev e h,
      t = q ++ ev :: h /\ quiet q /\ ev_reply ev = Raised e /\
      isinstance e "CouchbaseException" = true /\
      search_calls (q ++ [ev]) = 1 /\ after_catch o h).

Lemma search_calls_app t1 t2 :
  search_calls (t1 ++ t2) = search_calls t1 + search_calls t2.
Proof. unfold search_calls. rewrite proj_app, List.length_app. reflexivity. Qed.

Section Shape.
Context {W : Type} (lib : Library W).

Lemma handler_spec :
  spec (bind (call lib (Builtin "traceback.format_exc") [])
          (fun formatted =>
             bind (call lib (Builtin "logging.error") [VObj formatted])
               (fun _ => ret tt)))
       handler_events.
Proof.
  eapply spec_bind with
    (Phi1 := fun o evs => match o with
                          | Ok tb => evs = [format_exc_event (Returned tb)]
                          | Raise e => evs = [format_exc_event (Raised e)]
                          end)
    (Phi2 := fun tb o evs =>
       (exists e, o = Raise e /\ evs = [logging_error_event tb (Raised e)]) \/
       (exists v, o = Ok tt /\ evs = [logging_error_event tb (Returned v)])).
  - apply spec_call; reflexivity.
  - intros tb.
    eapply spec_bind with
      (Phi1 := fun o evs => match o with
                            | Ok v => evs = [logging_error_event tb (Returned v)]
                            | Raise e => evs = [logging_error_event tb (Raised e)]
                            end)
      (Phi2 := fun _ o evs => o = Ok tt /\ evs = []).
    + apply spec_call; reflexivity.
    + intros v. apply spec_ret. auto.
    + cbn beta. intros v evs1 o evs2 -> [-> ->]. right. exists v. split; reflexivity.
    + cbn beta. intros e evs ->. left. exists e. split; reflexivity.
  - cbn beta. intros tb evs1 o evs2 -> [(e & -> & ->)|(v & -> & ->)].
    + right. left. exists tb, e. split; reflexivity.
    + right. right. exists tb, v. split; reflexivity.
  - cbn beta. intros e evs ->. left. exists e. split; reflexivity.
Qed.

Lemma simple_spec cluster : spec (Search.simple lib cluster) simple_events.
Proof.
  unfold Search.simple.
  eapply spec_try with
    (Phi1 := fun o evs => plain o evs /\ search_calls evs = 1)
    (Phi2 := handler_events).
  - apply spec_conj.
    + plainness.
    + eapply spec_weaken with (Phi := fun _ evs => proj search_site evs = [tt]).
      * unfold method. eapply exact_call_then; [intros; reflexivity | intros; hush].
      * cbn beta. intros _ evs H. unfold search_calls. rewrite H. reflexivity.
  - unfold builtin. apply handler_spec.
  - intros a evs [Hp Hc]. left. auto.
  - intros e evs Hi [Hp Hc]. left. auto.
  - intros e evs1 o evs2 Hi [Hp Hc] Hh. right.
    destruct Hp as (q & ev & -> & Hq & Hr).
    exists q, ev, e, evs2. rewrite <- app_assoc. auto 10.
Qed.
End Shape.

Lemma quiet_one ev : raised ev = false -> quiet [ev].
Proof. intros H. repeat constructor. exact H. Qed.

Lemma run_shape_cons o ev t :
  raised ev = false -> search_site ev = [] -> run_shape o t -> run_shape o (ev :: t).
Proof.
  intros Hr Hs [[Hp Ho]|(q & ev' & e & h & -> & Hq & Hr' & Hi & Hc & Hh)].
  - left. split.
    + change (ev :: t) with ([ev] ++ t). eapply (plain_app tt); [|exact Hp].
      apply quiet_one. exact Hr.
    + destruct o as [a|e]; auto. destruct Ho as [Ho|Ho]; auto. right.
      change (ev :: t) with ([ev] ++ t). rewrite search_calls_app.
      unfold search_calls at 1. cbn. rewrite Hs. exact Ho.
  - right. exists (ev :: q), ev', e, h. repeat split; auto.
    + constructor; auto.
    + change ((ev :: q) ++ [ev']) with ([ev] ++ (q ++ [ev'])).
      rewrite search_calls_app. unfold search_calls at 1. cbn. rewrite Hs. exact Hc.
Qed.

Section Governed.
Context {W : Type} (lib : Library W).

Lemma shaped_call c args (k : obj -> M unit) :
  (forall r, search_site {| ev_target := c; ev_args := args; ev_reply := r |} = []) ->
  (forall v, spec (k v) run_shape) ->
  spec (bind (call lib c args) k) run_shape.
Proof.
  intros Hs Hk.
  eapply spec_bind with
    (Phi1 := fun o evs => match o with
                          | Ok v => evs = [{| ev_target := c; ev_args := args; ev_reply := Returned v |}]
                          | Raise e => evs = [{| ev_target := c; ev_args := args; ev_reply := Raised e |}]
                          end)
    (Phi2 := fun _ => run_shape).
  - apply spec_call; reflexivity.
  - exact Hk.
  - cbn beta. intros v evs1 o evs2 -> H. cbn [app].
    apply run_shape_cons; auto.
  - cbn beta. intros e evs ->. left. split.
    + cbn. eexists [], _. repeat split. constructor.
    + right. unfold search_calls. cbn. rewrite Hs. cbn. discriminate.
Qed.

Lemma module_shape : spec (Search.__call__ lib) run_shape.
Proof.
  unfold Search.__call__, static, method.
  apply shaped_call; [reflexivity | intros cluster].
  apply shaped_call; [reflexivity | intros bucket].
  apply shaped_call; [reflexivity | intros collection].
  eapply spec_bind with
    (Phi1 := simple_events)
    (Phi2 := fun _ o evs =>
       plain o evs /\ exists r rest, evs = squery_search cluster r :: rest).
  - apply simple_spec.
  - intros _. apply spec_conj.
    + unfold Search.squery, Search.limit, Search.ryow, Search.highlight, Search.sort,
        Search.facets, Search.fields, Search.simpleresult, Search.simplefacetresult.
      plainness.
    + apply opens_bind.
      * unfold Search.squery, method. apply opens_call_bind. intros v. framing.
      * intros _.
        unfold Search.limit, Search.ryow, Search.highlight, Search.sort,
          Search.facets, Search.fields, Search.simpleresult, Search.simplefacetresult.
        framing.
  - cbn beta. intros a evs1 o evs2 Hs [Hp (r & rest & ->)].
    destruct Hs as [(Hp1 & Hc1 & _)|(q & ev & e & h & -> & Hq & Hr & Hi & Hc & Hh)].
    + left. split.
      * eapply plain_app; eauto.
      * destruct o as [u|e]; auto. right.
        rewrite search_calls_app, Hc1.
        change (squery_search cluster r :: rest) with ([squery_search cluster r] ++ rest).
        rewrite search_calls_app. cbn. discriminate.
    + right. exists q, ev, e, (h ++ squery_search cluster r :: rest).
      rewrite <- app_assoc. repeat split; auto.
      destruct Hh as [(e' & He & _)|[(tb & e' & He & _)|(tb & v & _ & ->)]];
        try discriminate He.
      right. right. exists tb, v, cluster, r, rest. split; auto.
  - cbn beta. intros e evs [(Hp & Hc & Hi)|(q & ev & e' & h & -> & Hq & Hr & Hi & Hc & Hh)].
    + left. split; auto.
    + right. exists q, ev, e', h. repeat split; auto.
      destruct Hh as [(e1 & He & ->)|[(tb & e1 & He & ->)|(tb & v & He & _)]];
        try discriminate He.
      * left. eauto.
      * right. left. eauto.
Qed.
End Governed.

Lemma raised_of_reply ev e : ev_reply ev = Raised e -> raised ev = true.
Proof. unfold raised. intros ->. reflexivity. Qed.

Lemma quiet_no_raise t pre ev post :
  quiet t -> t = pre ++ ev :: post -> raised ev = true -> False.
Proof.
  intros Hq -> Hr. unfold quiet in Hq. rewrite Forall_forall in Hq.
  rewrite Hq in Hr; [discriminate|]. apply in_or_app. right. left. reflexivity.
Qed.

(** Where a raising call can sit in a trace that starts quietly. *)
Lemma raised_split q x rest pre ev post :
  quiet q -> q ++ x :: rest = pre ++ ev :: post -> raised ev = true ->
  (pre = q /\ ev = x /\ post = rest) \/
  (exists pre', pre = q ++ x :: pre' /\ rest = pre' ++ ev :: post).
Proof.
  intros Hq Ht Hr. apply split_app in Ht.
  destruct Ht as [(post1 & Ht & _)|(pre2 & -> & Ht)].
  - exfalso. eapply quiet_no_raise; eauto.
  - destruct pre2 as [|y pre2]; cbn in Ht; inversion Ht; subst.
    + left. rewrite app_nil_r. auto.
    + right. exists pre2. auto.
Qed.

Lemma plain_raise_last {A} (o : outcome A) t pre ev post e :
  plain o t -> t = pre ++ ev :: post -> ev_reply ev = Raised e ->
  post = [] /\ o = Raise e.
Proof.
  intros Hp Ht Hr. pose proof (raised_of_reply _ _ Hr) as Hr'.
  destruct o as [a|e0]; cbn in Hp.
  - exfalso. eapply quiet_no_raise; eauto.
  - destruct Hp as (q & ev0 & -> & Hq & Hr0).
    destruct (raised_split _ _ _ _ _ _ Hq Ht Hr') as [(-> & -> & ->)|(pre' & _ & Hnil)].
    + split; auto. congruence.
    + destruct pre'; discriminate.
Qed.

(** The call was made inside the [try] block: nothing has raised before
    it, and exactly one search request has been issued so far, this call
    included.  The block opens with the first search request (line 61),
    and the statement after it opens with the second (line 149). *)
Definition in_try_block (pre : trace) (ev : event) : Prop :=
  quiet pre /\ search_calls (pre ++ [ev]) = 1.

Definition caught (pre : trace) (ev : event) (e : exn) : Prop :=
  isinstance e "CouchbaseException" = true /\ in_try_block pre ev.

(** After a caught exception: the traceback is formatted, then logged,
    then the next snippet starts; nothing is tried again. *)
Definition only_logs (post : trace) : Prop :=
  exists r1 post1,
    post = format_exc_event r1 :: post1 /\
    forall tb, r1 = Returned tb ->
      exists r2 post2,
        post1 = logging_error_event tb r2 :: post2 /\
        forall v, r2 = Returned v ->
          exists cluster r3 post3, post2 = squery_search cluster r3 :: post3.

Lemma shape_governed o t pre ev post e :
  run_shape o t -> t = pre ++ ev :: post -> ev_reply ev = Raised e ->
  (caught pre ev e -> only_logs post) /\
  (~ caught pre ev e -> post = [] /\ o = Raise e).
Proof.
  intros Hs Ht Hr. pose proof (raised_of_reply _ _ Hr) as Hr'.
  destruct Hs as [[Hp Ho]|(q & ev0 & e0 & h & -> & Hq & Hr0 & Hi & Hc & Hh)].
  - destruct (plain_raise_last _ _ _ _ _ _ Hp Ht Hr) as [-> ->].
    split; auto. intros (Hi & Hq & Hc). exfalso.
    destruct Ho as [Ho|Ho]; [congruence|]. apply Ho. rewrite Ht. exact Hc.
  - destruct (raised_split _ _ _ _ _ _ Hq Ht Hr') as [(-> & -> & ->)|(pre' & -> & Hh')].
    + assert (e0 = e) by congruence. subst e0. split.
      * intros _.
        destruct Hh as [(e' & _ & ->)|[(tb & e' & _ & ->)|(tb & v & c & r & rest & -> & _)]].
        -- eexists _, []. split; [reflexivity|]. intros tb Heq. discriminate Heq.
        -- eexists _, _. split; [reflexivity|]. intros tb' Heq. inversion Heq; subst tb'.
           eexists _, []. split; [reflexivity|]. intros v Heq'. discriminate Heq'.
        -- eexists _, _. split; [reflexivity|]. intros tb' Heq. inversion Heq; subst tb'.
           eexists _, _. split; [reflexivity|]. intros v' _. eauto.
      * intros Hn. exfalso. apply Hn. repeat split; auto.
    + split.
      * intros (_ & Hq' & _). exfalso.
        eapply (quiet_no_raise _ q ev0 pre' Hq' eq_refl).
        eapply raised_of_reply; eauto.
      * intros _.
        destruct Hh as [(e' & -> & ->)|[(tb & e' & -> & ->)|(tb & v & c & r & rest & -> & Hp)]].
        -- destruct pre' as [|? [|? ?]]; inversion Hh'; subst.
           split; auto. cbn in Hr. congruence.
        -- destruct pre' as [|? [|? [|? ?]]]; inversion Hh'; subst.
           ++ discriminate Hr'.
           ++ split; auto. cbn in Hr. congruence.
        -- destruct pre' as [|? [|? pre']]; inversion Hh'; subst.
           ++ discriminate Hr'.
           ++ discriminate Hr'.
           ++ eapply plain_raise_last; eauto.
Qed.

(** The handler, with line 64 closed.  In every run of the closed
    reading, against any library, take any call that raised.  If it
    raised an instance of [CouchbaseException], the exception class the
    module imports from the client library, from inside the [try] block
    of the [simple] snippet, the exception is caught and the handler only
    logs: the next call formats the traceback, the one after it hands the
    result to [logging.error], and then the run goes on with the next
    snippet; the failed call is not tried again.  In every other case (an
    exception of another class, or a call outside that block, the handler
    itself included) the exception is caught nowhere: the call is the
    last of the run and the run ends by raising that exception.  Calls
    are the events of the model; the construction of a value, such as
    [QueryStringQuery("query")] on line 62, is no event, and what a
    constructor might raise is outside this statement. *)
Lemma closed_reading_has_one_handler :
  forall {W} (lib : Library W) (w : W) (pre post : trace) (ev : event) (e : exn),
    snd (run lib w) = pre ++ ev :: post ->
    ev_reply ev = Raised e ->
    imported_from_couchbase "CouchbaseException" = true /\
    (caught pre ev e -> only_logs post) /\
    (~ caught pre ev e -> post = [] /\ fst (run lib w) = Raise e).
Proof.
  intros W lib w pre post ev e Ht Hr. split; [reflexivity|].
  unfold run in *. cbn [fst snd] in *. unfold start in *.
  destruct (module_shape lib w []) as (evs & Hevs & Hs).
  rewrite Hevs in Ht. cbn [app] in Ht.
  eapply shape_governed; eauto.
Qed.

(** The failed search of a run against [failing_lib]. *)
Definition failed_search : event :=
  {| ev_target := Method 0 "search_query";
     ev_args := [VStr "index"; QueryStringQuery "query"];
     ev_reply := Raised index_not_found |}.

Example closed_reading_logs_the_failed_search :
  only_logs (skipn 4 (snd (run failing_lib 0))).
Proof.
  refine (proj1 (proj2 (closed_reading_has_one_handler failing_lib 0
           (firstn 3 (snd (run failing_lib 0))) (skipn 4 (snd (run failing_lib 0)))
           failed_search index_not_found _ _)) _).
  - vm_compute. reflexivity.
  - reflexivity.
  - split; [reflexivity|]. split.
    + vm_compute. repeat constructor.
    + vm_compute. reflexivity.
Qed.

(** C2: the file holds one [try] line (60) and one [except] line (67),
    and the [except] line is read inside the [print] call that line 64
    leaves open, one bracket deep: as the file stands it is no clause of
    the [try], and the [try] statement the claim describes is not formed.
    Running the file as written, against any library, raises
    [SyntaxError] before any call: no exception of the library is caught,
    nothing is logged, and [SyntaxError] is not a [CouchbaseException].
    Where the first search fails with [IndexNotFoundException], a
    [CouchbaseException] ([failing_lib]), the file as written ends with
    [SyntaxError] and an empty trace; the same file with line 64 closed
    catches that exception, logs the traceback, and returns normally
    after all the other snippets. *)
Theorem except_clause_is_lost_in_the_open_call :
  forall {W} (lib : Library W) (w : W),
    (lines_opening_with "try" source_text = [(60, 0)] /\
     lines_opening_with "except" source_text = [(67, 1)] /\
     lex (firstn 66 source_text) = Some (Code, [open_print]) /\
     lex source_text = Some (Code, [open_print])) /\
    (run_as_written lib w = (Raise syntax_error, []) /\
     isinstance syntax_error "CouchbaseException" = false /\
     forall ev, In ev (snd (run_as_written lib w)) -> False) /\
    (run_as_written failing_lib 0 = (Raise syntax_error, []) /\
     fst (run failing_lib 0) = Ok tt /\
     firstn 3 (skipn 3 (snd (run failing_lib 0))) =
       [ failed_search;
         format_exc_event (Returned 3);
         logging_error_event 3 (Returned 4) ] /\
     lines_opening_with "except" closed_text = [(67, 0)]).
Proof.
  intros W lib w.
  split; [repeat split; vm_compute; reflexivity|].
  split.
  - rewrite run_as_written_is_empty. cbn [snd].
    split; [reflexivity|]. split; [reflexivity|]. intros ev [].
  - rewrite run_as_written_is_empty.
    repeat split; vm_compute; reflexivity.
Qed.

(** * What is read of a result, and where *)

(** A call on the chain that leads to the total row count (line 66). *)
Definition reads_total (ev : event) : bool :=
  match ev_target ev with
  | Method _ m => mem m ["metadata"; "metrics"; "total_rows"]
  | _ => false
  end.

(** The request that opens the [simple] snippet (lines 61-62). *)
Definition simple_search (cluster : obj) (r : reply) : event :=
  {| ev_target := Method cluster "search_query";
     ev_args := [VStr "index"; QueryStringQuery "query"];
     ev_reply := r |}.

(** Each call on that chain is made while nothing has raised yet and
    exactly one search request has been issued: in the [try] block of the
    [simple] snippet, after the request of line 61 and before that of
    line 149. *)
Definition total_placed (evs : trace) : Prop :=
  forall pre ev post,
    evs = pre ++ ev :: post -> reads_total ev = true ->
    quiet pre /\ search_calls pre = 1.

Lemma total_placed_cons ev t :
  raised ev = false -> search_site ev = [] -> reads_total ev = false ->
  total_placed t -> total_placed (ev :: t).
Proof.
  intros Hr Hs Ht H pre ev' post Heq Hrt.
  destruct pre as [|x pre]; cbn in Heq; injection Heq as <- Heq.
  - congruence.
  - destruct (H _ _ _ Heq Hrt) as [Hq Hc]. split.
    + constructor; auto.
    + change (ev :: pre) with ([ev] ++ pre). rewrite search_calls_app.
      unfold search_calls at 1. cbn. rewrite Hs. exact Hc.
Qed.

Lemma total_placed_one ev : reads_total ev = false -> total_placed [ev].
Proof.
  intros Ht [|x [|? ?]] ev' post Heq Hrt; inversion Heq; subst. congruence.
Qed.

Lemma total_placed_free t1 t2 :
  total_placed t1 -> audited (fun ev => negb (reads_total ev)) t2 ->
  total_placed (t1 ++ t2).
Proof.
  intros H1 H2 pre ev post Heq Hrt.
  apply split_app in Heq. destruct Heq as [(post1 & Heq & _)|(pre2 & -> & Heq)].
  - exact (H1 _ _ _ Heq Hrt).
  - exfalso. unfold audited in H2. rewrite Forall_forall in H2.
    assert (Hin : In ev t2) by (rewrite Heq; apply in_or_app; right; left; reflexivity).
    apply H2 in Hin. rewrite Hrt in Hin. discriminate.
Qed.

Lemma plain_prefix_quiet {A} (o : outcome A) evs pre ev post :
  plain o evs -> evs = pre ++ ev :: post -> quiet pre.
Proof.
  intros Hp ->. destruct o as [a|e]; cbn in Hp.
  - apply Forall_app in Hp. tauto.
  - destruct Hp as (q & last & Heq & Hq & _). symmetry in Heq.
    apply split_app in Heq. destruct Heq as [(post1 & Heq & _)|(pre2 & -> & Heq)].
    + rewrite Heq in Hq. apply Forall_app in Hq. tauto.
    + destruct pre2 as [|? [|? ?]]; cbn in Heq; inversion Heq; subst.
      rewrite app_nil_r. exact Hq.
Qed.

Lemma try_block_placed {A} (o : outcome A) evs cluster r rest :
  plain o evs -> search_calls evs = 1 -> evs = simple_search cluster r :: rest ->
  total_placed evs.
Proof.
  intros Hp Hc Hevs pre ev post Heq Hrt. split.
  - eapply plain_prefix_quiet; eauto.
  - rewrite Heq in Hevs. destruct pre as [|x pre]; cbn in Hevs; injection Hevs as -> Hrest.
    + discriminate Hrt.
    + rewrite Heq in Hc.
      change ((simple_search cluster r :: pre) ++ ev :: post)
        with ([simple_search cluster r] ++ pre ++ ev :: post) in Hc.
      rewrite !search_calls_app in Hc.
      change (simple_search cluster r :: pre) with ([simple_search cluster r] ++ pre).
      rewrite search_calls_app.
      change (search_calls [simple_search cluster r]) with 1 in *. lia.
Qed.

Section Placed.
Context {W : Type} (lib : Library W).

Lemma placed_call c args (k : obj -> M unit) :
  (forall r, search_site {| ev_target := c; ev_args := args; ev_reply := r |} = []) ->
  (forall r, reads_total {| ev_target := c; ev_args := args; ev_reply := r |} = false) ->
  (forall v, spec (k v) (fun _ evs => total_placed evs)) ->
  spec (bind (call lib c args) k) (fun _ evs => total_placed evs).
Proof.
  intros Hs Ht Hk.
  eapply spec_bind with
    (Phi1 := fun o evs => match o with
                          | Ok v => evs = [{| ev_target := c; ev_args := args; ev_reply := Returned v |}]
                          | Raise e => evs = [{| ev_target := c; ev_args := args; ev_reply := Raised e |}]
                          end)
    (Phi2 := fun _ _ evs => total_placed evs).
  - apply spec_call; reflexivity.
  - exact Hk.
  - cbn beta. intros v evs1 o evs2 -> H. cbn [app].
    apply total_placed_cons; auto.
  - cbn beta. intros e evs ->. apply total_placed_one. apply Ht.
Qed.

Lemma simple_total_placed cluster :
  spec (Search.simple lib cluster) (fun _ evs => total_placed evs).
Proof.
  unfold Search.simple.
  eapply spec_try with
    (Phi1 := fun o evs =>
       (plain o evs /\ search_calls evs = 1) /\
       exists r rest, evs = simple_search cluster r :: rest)
    (Phi2 := fun _ evs => audited (fun ev => negb (reads_total ev)) evs).
  - apply spec_conj; [apply spec_conj|].
    + plainness.
    + eapply spec_weaken with (Phi := fun _ evs => proj search_site evs = [tt]).
      * unfold method. eapply exact_call_then; [intros; reflexivity | intros; hush].
      * cbn beta. intros _ evs H. unfold search_calls. rewrite H. reflexivity.
    + unfold method.
      apply (opens_call_bind lib (Method cluster "search_query")
               [VStr "index"; QueryStringQuery "query"]).
      intros v. framing.
  - change (always (audited (fun ev => negb (reads_total ev)))
              (bind (builtin lib "traceback.format_exc" [])
                 (fun formatted =>
                    bind (builtin lib "logging.error" [VObj formatted])
                      (fun _ => ret tt)))).
    audit.
  - cbn beta. intros a evs [[Hp Hc] (r & rest & Hevs)]. eapply try_block_placed; eauto.
  - cbn beta. intros e evs _ [[Hp Hc] (r & rest & Hevs)]. eapply try_block_placed; eauto.
  - cbn beta. intros e evs1 o evs2 _ [[Hp Hc] (r & rest & Hevs)] Hh.
    apply total_placed_free; [|exact Hh]. eapply try_block_placed; eauto.
Qed.

Lemma module_total_placed :
  spec (Search.__call__ lib) (fun _ evs => total_placed evs).
Proof.
  unfold Search.__call__, static, method.
  apply placed_call; [reflexivity | reflexivity | intros cluster].
  apply placed_call; [reflexivity | reflexivity | intros bucket].
  apply placed_call; [reflexivity | reflexivity | intros collection].
  eapply spec_bind with
    (Phi1 := fun _ evs => total_placed evs)
    (Phi2 := fun _ _ evs => audited (fun ev => negb (reads_total ev)) evs).
  - apply simple_total_placed.
  - intros _.
    change (always (audited (fun ev => negb (reads_total ev)))
              (bind (Search.squery lib cluster)
                 (fun _ => bind (Search.limit lib cluster)
                 (fun _ => bind (Search.ryow lib cluster collection)
                 (fun _ => bind (Search.highlight lib cluster)
                 (fun _ => bind (Search.sort lib cluster)
                 (fun _ => bind (Search.facets lib cluster)
                 (fun _ => bind (Search.fields lib cluster)
                 (fun result => bind (Search.simpleresult lib result)
                 (fun _ => Search.simplefacetresult lib result)))))))))).
    unfold_module. audit.
  - cbn beta. intros a evs1 o evs2 H1 H2. apply total_placed_free; auto.
  - cbn beta. auto.
Qed.
End Placed.

(** C3: what the module reads of a result.  With line 64 closed, in
    every run, against any library, each member the module reads is
    read from an object the library gave earlier in that run, and either
    belongs to the session (bucket and search_query on the cluster,
    default_collection on the bucket, upsert on the collection) or to the
    result surface: rows, hits, facets and metadata of a search result;
    score, id and fields of a row; id and score of a hit; name and total
    of a facet; metrics of the metadata and total_rows of the metrics.
    No other member of any object is ever read.  The hit rows (id, score,
    fields), the hits and the facets (name, total) are read by the
    snippets from line 149 on: a complete run reads all of them after its
    second search request.  The total row count is another matter: in
    every run each call on the chain metadata, metrics, total_rows is
    made in the [try] block of the [simple] snippet, behind the one
    search request of line 61, which is where line 66 stands; a complete
    run makes these calls before its second search request and nowhere
    else.  Line 66 lies inside the call that line 64 leaves open.  As
    written the file raises [SyntaxError] before any call, so that no
    member of any result is read and the total row count never is. *)
Theorem results_are_read_within_the_surface :
  forall {W} (lib : Library W) (w : W),
    (forall pre ev post r a,
        snd (run lib w) = pre ++ ev :: post ->
        access_of (ev_target ev) = Some (r, a) ->
        exists K, In (r, K) (provenance [] pre) /\
                  (In (K, a) session_surface \/ In (K, a) result_surface)) /\
    (forall p, In p result_surface <->
               In p hit_and_facet_surface \/ In p total_rows_surface) /\
    (fst (run fresh_lib 0) = Ok tt /\
     nth_error (snd (run fresh_lib 0)) 20 = Some (squery_search 0 (Returned 21)) /\
     search_calls (firstn 20 (snd (run fresh_lib 0))) = 1 /\
     incl hit_and_facet_surface
       (reads (provenance [] (firstn 20 (snd (run fresh_lib 0))))
              (skipn 20 (snd (run fresh_lib 0)))) /\
     incl total_rows_surface (reads [] (firstn 20 (snd (run fresh_lib 0))))) /\
    (forall pre ev post,
        snd (run lib w) = pre ++ ev :: post -> reads_total ev = true ->
        quiet pre /\ search_calls pre = 1) /\
    (run_as_written lib w = (Raise syntax_error, []) /\
     reads [] (snd (run_as_written lib w)) = [] /\
     forall ev, In ev (snd (run_as_written lib w)) -> reads_total ev = false).
Proof.
  intros W lib w. split; [|split; [|split; [|split]]].
  - intros pre ev post r a Ht Ha.
    pose proof (well_kinded_at _ _ _ _ _ (module_well_kinded lib w) Ht) as Hj.
    unfold justified in Hj.
    destruct (ev_target ev) as [| r' m | r' n | it |]; cbn in Ha; try discriminate;
      inversion Ha; subst; apply justified_receiver in Hj;
      destruct Hj as (K & K' & Hin & Hf); exists K; split; auto;
      eapply follow_surface; eauto.
  - intros p. unfold result_surface, hit_and_facet_surface, total_rows_surface.
    cbn [In]. tauto.
  - split; [reflexivity|]. split; [reflexivity|]. split; [reflexivity|]. split.
    + intros p Hp. unfold hit_and_facet_surface in Hp. cbn [In] in Hp.
      repeat (destruct Hp as [<-|Hp]; [pick_event|]). destruct Hp.
    + intros p Hp. unfold total_rows_surface in Hp. cbn [In] in Hp.
      repeat (destruct Hp as [<-|Hp]; [pick_event|]). destruct Hp.
  - intros pre ev post Ht Hrt.
    unfold run in Ht. cbn [snd] in Ht. unfold start in Ht.
    destruct (module_total_placed lib w []) as (evs & Hevs & Hp).
    rewrite Hevs in Ht. cbn [app] in Ht. exact (Hp _ _ _ Ht Hrt).
  - rewrite run_as_written_is_empty. cbn [snd reads In].
    split; [reflexivity|]. split; [reflexivity|]. intros ev [].
Qed.

(** The first call for the total row count in a complete run. *)
Definition first_total_rows : event :=
  {| ev_target := Method 10 "total_rows"; ev_args := []; ev_reply := Returned 11 |}.

Lemma results_are_read_within_the_surface_witness :
  (exists K,
      In (3, K) (provenance [] (firstn 4 (snd (run fresh_lib 0)))) /\
      (In (K, ByCall "rows") session_surface \/ In (K, ByCall "rows") result_surface)) /\
  (quiet (firstn 10 (snd (run fresh_lib 0))) /\
   search_calls (firstn 10 (snd (run fresh_lib 0))) = 1).
Proof.
  destruct (results_are_read_within_the_surface fresh_lib 0) as (Hall & _ & _ & Hplaced & _).
  split.
  - apply (Hall (firstn 4 (snd (run fresh_lib 0))) first_rows
                (skipn 5 (snd (run fresh_lib 0))) 3 (ByCall "rows")).
    + vm_compute. reflexivity.
    + reflexivity.
  - apply (Hplaced (firstn 10 (snd (run fresh_lib 0))) first_total_rows
                   (skipn 11 (snd (run fresh_lib 0)))).
    + vm_compute. reflexivity.
    + reflexivity.
Defined.

(** * What the text shows *)

(** C10: the module as written is not valid Python.  In the [simple]
    snippet (lines 59-68 of the file) line 64 starts at depth 0 and ends
    at depth 1: the parenthesis that opens its [print] call, at column
    22, is not closed.  Lines 65 to 68 are read inside it, the [except]
    line (67) at depth 1, so the snippet gives four complete logical
    lines (the import, the [try:], the assignment of lines 61-62 and the
    [for]), none of which opens with [except], and lines 64-68 are left
    over as one statement that never ends.  Nothing later in the file
    closes the call either: up to line 63 every bracket is closed, and
    the end of the file, on line 391, is reached with exactly that one
    bracket open.  So the file does not compile; neither it nor the
    snippet on its own has an embedding as a program, whichever program
    one proposes.  Running the file as written raises [SyntaxError] from
    every state, against every library, and leaves the state untouched:
    no call is made, no operation of the file is reached and no value is
    produced.  With the one call of line 64 closed every bracket of the
    file is closed, the [except] line is a line of its own at depth 0,
    and the text runs as [Search.__call__]; that is the reading the
    run-time statements of this development are about. *)
Theorem simple_snippet_leaves_the_print_call_open :
  (firstn 10 (skipn 58 source_text) = simple_text /\
   depths simple_text 0 = [0; 0; 0; 1; 0; 0; 1; 2; 1; 1; 1] /\
   fst (logical_lines simple_text [] 0) =
     [ firstn 1 simple_text; firstn 1 (skipn 1 simple_text);
       firstn 2 (skipn 2 simple_text); firstn 1 (skipn 4 simple_text) ] /\
   snd (logical_lines simple_text [] 0) = skipn 5 simple_text /\
   existsb (opens_with "try:") (fst (logical_lines simple_text [] 0)) = true /\
   existsb (opens_with "except") (fst (logical_lines simple_text [] 0)) = false) /\
  (lex (firstn 63 source_text) = Some (Code, []) /\
   lex (firstn 64 source_text) = Some (Code, [open_print]) /\
   lex (firstn 66 source_text) = Some (Code, [open_print]) /\
   lex source_text = Some (Code, [open_print]) /\
   lines_opening_with "except" source_text = [(67, 1)] /\
   balanced source_text = false) /\
  (forall (P : Type) (program : P),
      embed source_text program = None /\ embed simple_text program = None) /\
  (forall {W} (lib : Library W) (s : @state W),
      as_written lib s = (Raise syntax_error, s)) /\
  (forall {W} (lib : Library W) (w : W),
      run_as_written lib w = (Raise syntax_error, []) /\
      fst (run_as_written lib w) <> Ok tt /\
      (forall ev, ~ In ev (snd (run_as_written lib w)))) /\
  (balanced closed_text = true /\
   lines_opening_with "except" closed_text = [(67, 0)] /\
   snd (logical_lines (with_line simple_text 59 64 line_64_closed) [] 0) = [] /\
   existsb (opens_with "except")
     (fst (logical_lines (with_line simple_text 59 64 line_64_closed) [] 0)) = true /\
   forall {W} (lib : Library W) (s : @state W),
     load closed_text (Search.__call__ lib) s = Search.__call__ lib s).
Proof.
  split; [repeat split; vm_compute; reflexivity|].
  split; [repeat split; vm_compute; reflexivity|].
  split.
  { intros P program. unfold embed. rewrite source_text_is_not_balanced.
    split; [reflexivity|].
    replace (balanced simple_text) with false by (vm_compute; reflexivity).
    reflexivity. }
  split; [intros W lib s; apply as_written_raises|].
  split.
  { intros W lib w. rewrite run_as_written_is_empty. cbn [fst snd].
    split; [reflexivity|]. split; [discriminate|]. intros ev []. }
  split; [exact closed_text_is_balanced|].
  split; [vm_compute; reflexivity|].
  split; [vm_compute; reflexivity|].
  split; [vm_compute; reflexivity|].
  intros W lib s. apply closed_text_runs.
Qed.

(** C8: the reactive and asynchronous API is only mentioned.  Every line
    of the reactive fragment (282-292) is a comment.  The closing text
    (324-391) is one string literal: it opens and closes with a triple
    quote and holds none in between; the explicit [request()] calls and
    the batch of 10 rows are described there.  The module imports no
    other modules than the four couchbase ones, [logging] and [traceback].
    And in every run, against any library, no call names a member of the
    reactive or asynchronous API: neither [reactive], [searchQuery],
    [flatMapMany], [subscribe] nor [request], nor the classes
    [ReactiveCluster] and [AsyncCluster]. *)
Theorem reactive_api_is_only_mentioned :
  forall {W} (lib : Library W) (w : W),
    forallb is_comment reactive_fragment = true /\
    existsb (contains ".reactive()") reactive_fragment = true /\
    (hd EmptyString closing_text = triple_quote /\
     last closing_text EmptyString = triple_quote /\
     existsb (contains triple_quote) (inner closing_text) = false) /\
    (existsb (contains "explicit `request()` calls") (inner closing_text) = true /\
     existsb (contains "request a batch size of 10 rows") (inner closing_text) = true /\
     existsb (contains "`ReactiveCluster` or `AsyncCluster`") (inner closing_text) = true) /\
    map fst imports =
      ["couchbase.cluster"; "couchbase.exceptions"; "couchbase.search";
       "couchbase.mutation_state"; "logging"; "traceback"] /\
    (forall ev, In ev (snd (run lib w)) -> blocking_call ev = true).
Proof.
  intros W lib w.
  repeat split; try (vm_compute; reflexivity).
  apply audited_run. apply module_blocking.
Qed.

(** * Further properties of the module *)

(** ** The connection comes first (lines 43-45) *)












(** ** Where the credentials go (line 43) *)








(** ** The order of the requests *)

(** What a call asks of the service: a search on an index with a query of
    some class and some options, or an upsert under a key. *)
Inductive request : Type :=
| Searched (index query : string) (options : list string)
| Upserted (key : string).

Definition request_of (ev : event) : list request :=
  match ev_target ev with
  | Method _ m =>
      if m =? "search_query" then
        match ev_args ev with
        | VStr index :: VNew query _ _ :: _ => [Searched index query (options_set ev)]
        | _ => []
        end
      else if m =? "upsert" then
        match ev_args ev with
        | VStr key :: _ => [Upserted key]
        | _ => []
        end
      else []
  | _ => []
  end.

(** The requests of lines 61, 149, 168, 194, 197, 218, 237, 257 and 275. *)
Definition requests_in_order : list request :=
  [ Searched "index" "QueryStringQuery" [];
    Searched "my-index-name" "PrefixQuery" ["fields"];
    Searched "index" "QueryStringQuery" ["skip"; "limit"];
    Upserted "key";
    Searched "index" "QueryStringQuery" ["consistent_with"];
    Searched "index" "QueryStringQuery" ["highlight_style"; "highlight_fields"];
    Searched "index" "QueryStringQuery" ["sort"];
    Searched "index" "QueryStringQuery" ["facets"];
    Searched "index" "QueryStringQuery" ["fields"] ].

Lemma module_requests {W} (lib : Library W) :
  yields request_of requests_in_order (Search.__call__ lib).
Proof.
  eapply yields_eq.
  - unfold_module. project.
  - reflexivity.
Qed.

(** X3: the searches and the one upsert reach the service in the order
    the file writes them.  In every run, against any library, the requests
    made are an initial part of that list of nine; a run that returns
    normally has made all nine, the failed first search included when its
    exception was caught.  So the module writes at most once, under the
    key ["key"], and only after its first three searches. *)
Theorem requests_are_made_in_file_order :
  forall {W} (lib : Library W) (w : W),
    (exists rest, requests_in_order = proj request_of (snd (run lib w)) ++ rest) /\
    (fst (run lib w) = Ok tt -> proj request_of (snd (run lib w)) = requests_in_order).
Proof.
  intros W lib w. apply (yields_run request_of _ _ w (module_requests lib)).
Qed.

Lemma requests_are_made_in_file_order_witness :
  proj request_of (snd (run failing_lib 0)) = requests_in_order.
Proof.
  apply (requests_are_made_in_file_order failing_lib 0). reflexivity.
Defined.

(** ** What a loop does for each item

    The loops of the module are straight-line code without a handler: as
    long as no call raises, each makes the same calls for every item, in
    the order the body writes them.  The model records the iteration of
    an iterable as one event that gives the items, ahead of the first
    pass through the body. *)

Definition returned (c : callee) (args : list pyval) (v : obj) : event :=
  {| ev_target := c; ev_args := args; ev_reply := Returned v |}.

Definition yielded (it : obj) (xs : list obj) : event :=
  {| ev_target := Iterate it; ev_args := []; ev_reply := Yielded xs |}.

(** The events split into one block for each item, in the order of the
    items, and [block] holds of each item with its block. *)
Fixpoint each (block : obj -> trace -> Prop) (xs : list obj) (evs : trace) : Prop :=
  match xs with
  | [] => evs = []
  | x :: rest =>
      exists here later, evs = here ++ later /\ block x here /\ each block rest later
  end.

Section Straight.
Context {W : Type} (lib : Library W).

(** When none of the calls [m] makes raises, [m] returns, and [Psi] holds
    of what it returns and of the events it emitted. *)
Definition straight {A} (m : @M W A) (Psi : A -> trace -> Prop) : Prop :=
  spec m (fun o evs => quiet evs -> exists a, o = Ok a /\ Psi a evs).

Lemma straight_ret {A} (a : A) (Psi : A -> trace -> Prop) :
  Psi a [] -> straight (ret a) Psi.
Proof. intros H. apply spec_ret. intros _. exists a. auto. Qed.

Lemma straight_call c args (Psi : obj -> trace -> Prop) :
  (forall v, Psi v [returned c args v]) -> straight (call lib c args) Psi.
Proof.
  intros H. apply spec_call.
  - intros v _. exists v. split; [reflexivity | apply H].
  - intros e Hq. inversion Hq as [|? ? Hr]. discriminate Hr.
Qed.

Lemma straight_iterate it (Psi : list obj -> trace -> Prop) :
  (forall xs, Psi xs [yielded it xs]) -> straight (iterate lib it) Psi.
Proof.
  intros H. apply spec_iterate.
  - intros xs _. exists xs. split; [reflexivity | apply H].
  - intros e Hq. inversion Hq as [|? ? Hr]. discriminate Hr.
Qed.

Lemma straight_bind {A B} (m : M A) (k : A -> M B) Psi1 (Psi2 : A -> B -> trace -> Prop)
      (Psi : B -> trace -> Prop) :
  straight m Psi1 ->
  (forall a, straight (k a) (Psi2 a)) ->
  (forall a evs1 b evs2, Psi1 a evs1 -> Psi2 a b evs2 -> Psi b (evs1 ++ evs2)) ->
  straight (bind m k) Psi.
Proof.
  intros Hm Hk Hjoin.
  eapply spec_bind with
    (Phi2 := fun a o evs => quiet evs -> exists b, o = Ok b /\ Psi2 a b evs);
    [exact Hm | exact Hk | |]; cbn beta.
  - intros a evs1 o evs2 H1 H2 Hq. apply Forall_app in Hq. destruct Hq as [Hq1 Hq2].
    destruct (H1 Hq1) as (a' & Ha & HP1). injection Ha as <-.
    destruct (H2 Hq2) as (b & -> & HP2). exists b. split; [reflexivity|].
    eapply Hjoin; eauto.
  - intros e evs H1 Hq. destruct (H1 Hq) as (a & Ha & _). discriminate Ha.
Qed.

(** A call and what follows it: the rest is described after the event of
    the call. *)
Lemma straight_call_then {A} c args (k : obj -> M A) (Psi : A -> trace -> Prop) :
  (forall v, straight (k v) (fun a evs => Psi a (returned c args v :: evs))) ->
  straight (bind (call lib c args) k) Psi.
Proof.
  intros Hk.
  eapply straight_bind with
    (Psi1 := fun v evs => evs = [returned c args v])
    (Psi2 := fun v a evs => Psi a (returned c args v :: evs)).
  - apply straight_call. reflexivity.
  - exact Hk.
  - intros v evs1 a evs2 -> H. exact H.
Qed.

Lemma straight_for_each xs (body : obj -> M unit) (block : obj -> trace -> Prop) :
  (forall x, straight (body x) (fun _ evs => block x evs)) ->
  straight (for_each xs body) (fun _ evs => each block xs evs).
Proof.
  intros Hb. induction xs as [|x xs IH]; cbn [for_each each].
  - apply straight_ret. reflexivity.
  - eapply straight_bind with
      (Psi1 := fun _ evs => block x evs)
      (Psi2 := fun _ _ evs => each block xs evs).
    + apply Hb.
    + intros _. exact IH.
    + intros _ evs1 _ evs2 H1 H2. exists evs1, evs2. auto.
Qed.

Lemma straight_for_in it (body : obj -> M unit) (block : obj -> trace -> Prop)
      (Psi : unit -> trace -> Prop) :
  (forall x, straight (body x) (fun _ evs => block x evs)) ->
  (forall xs evs, each block xs evs -> Psi tt (yielded it xs :: evs)) ->
  straight (for_in lib it body) Psi.
Proof.
  intros Hb HPsi. unfold for_in.
  eapply straight_bind with
    (Psi1 := fun xs evs => evs = [yielded it xs])
    (Psi2 := fun xs _ evs => each block xs evs).
  - apply straight_iterate. reflexivity.
  - intros xs. apply straight_for_each. exact Hb.
  - intros xs evs1 [] evs2 -> H. apply HPsi. exact H.
Qed.

(** What a program emitted from a state on, when no call raised. *)
Lemma straight_run {A} (m : M A) (Psi : A -> trace -> Prop) (s : @state W) evs :
  straight m Psi ->
  snd (snd (m s)) = snd s ++ evs -> quiet evs ->
  exists a, fst (m s) = Ok a /\ Psi a evs.
Proof.
  intros H Ht Hq. destruct s as [w t]. cbn [snd] in Ht.
  destruct (H w t) as (evs' & Ht' & HP).
  rewrite Ht' in Ht. apply app_inv_head in Ht. subst evs'. exact (HP Hq).
Qed.
End Straight.

(** Describes a loop body of calls, event by event. *)
Ltac straighten :=
  unfold method, static, getattr, builtin;
  repeat (apply straight_call_then; intros);
  apply straight_ret.

(** What [squery] does for one row (lines 152-156): its score is
    fetched, formatted and printed, then its id, then its fields are
    fetched and printed as they are. *)
Definition squery_row (row : obj) (evs : trace) : Prop :=
  exists score line1 u1 id line2 u2 fields u3,
    evs = [ returned (Method row "score") [] score;
            returned (Builtin "str.format") [VStr "Score: {}"; VObj score] line1;
            returned (Builtin "print") [VObj line1] u1;
            returned (Method row "id") [] id;
            returned (Builtin "str.format") [VStr "Document Id: {}"; VObj id] line2;
            returned (Builtin "print") [VObj line2] u2;
            returned (Method row "fields") [] fields;
            returned (Builtin "print") [VObj fields] u3 ].

Lemma squery_straight {W} (lib : Library W) (cluster : obj) :
  straight (Search.squery lib cluster) (fun _ evs =>
    exists result rows xs body,
      evs = squery_search cluster (Returned result)
            :: returned (Method result "rows") [] rows
            :: yielded rows xs :: body /\
      each squery_row xs body).
Proof.
  unfold Search.squery, method, builtin.
  apply straight_call_then; intros result.
  apply straight_call_then; intros rows.
  eapply straight_for_in with (block := squery_row).
  - intros row. straighten. unfold squery_row. repeat eexists.
  - intros xs evs H. exists result, rows, xs, evs. split; [reflexivity | exact H].
Qed.

(** X5: when no call raises, the calls of the [squery] snippet are
    exactly these, in this order: the search of line 149, [rows()] on its
    result, the iteration of the rows, and then for each row in turn its
    score, the formatting of ["Score: {}"] with that score, the [print]
    of the formatted line, its id, the formatting of ["Document Id: {}"]
    with that id, the [print] of that line, its fields, and the [print]
    of the fields as they came.  So three lines are printed for each row,
    each [print] receives what the call just before it returned, and for
    a result without rows nothing is fetched or printed. *)
Theorem squery_prints_three_lines_per_row :
  forall {W} (lib : Library W) (cluster : obj) (s : @state W) (evs : trace),
    snd (snd (Search.squery lib cluster s)) = snd s ++ evs ->
    quiet evs ->
    exists result rows xs body,
      evs = squery_search cluster (Returned result)
            :: returned (Method result "rows") [] rows
            :: yielded rows xs :: body /\
      each squery_row xs body /\
      List.length body = 8 * List.length xs.
Proof.
  intros W lib cluster s evs Ht Hq.
  destruct (straight_run _ _ _ _ (squery_straight lib cluster) Ht Hq)
    as (_ & _ & result & rows & xs & body & Hevs & Hbody).
  exists result, rows, xs, body. split; [exact Hevs|]. split; [exact Hbody|].
  clear Hevs Ht Hq. revert body Hbody.
  induction xs as [|x xs IH]; cbn [each]; intros body Hbody.
  - subst body. reflexivity.
  - destruct Hbody as (here & later & -> & Hrow & Hlater).
    destruct Hrow as (? & ? & ? & ? & ? & ? & ? & ? & ->).
    rewrite List.length_app, (IH _ Hlater). cbn [List.length]. lia.
Qed.

Lemma squery_prints_three_lines_per_row_witness :
  exists result rows xs body,
    skipn 3 (snd (snd (Search.squery fresh_lib 0 (1, firstn 3 (snd (run fresh_lib 0)))))) =
      squery_search 0 (Returned result)
      :: returned (Method result "rows") [] rows
      :: yielded rows xs :: body /\
    each squery_row xs body /\
    List.length body = 8 * List.length xs.
Proof.
  apply (squery_prints_three_lines_per_row fresh_lib 0
           (1, firstn 3 (snd (run fresh_lib 0)))).
  - vm_compute. reflexivity.
  - vm_compute. repeat constructor.
Defined.

(** What the closing snippets do for one hit (lines 309-310) and for one
    facet (lines 321-322): two attributes are read. *)
Definition hit_reads (hit : obj) (evs : trace) : Prop :=
  exists document_id score,
    evs = [ returned (GetAttr hit "id") [] document_id;
            returned (GetAttr hit "score") [] score ].

Definition facet_reads (facet : obj) (evs : trace) : Prop :=
  exists name total,
    evs = [ returned (GetAttr facet "name") [] name;
            returned (GetAttr facet "total") [] total ].

Lemma simpleresult_straight {W} (lib : Library W) (result : obj) :
  straight (Search.simpleresult lib result) (fun _ evs =>
    exists hits xs body,
      evs = returned (Method result "hits") [] hits :: yielded hits xs :: body /\
      each hit_reads xs body).
Proof.
  unfold Search.simpleresult, method, getattr.
  apply straight_call_then; intros hits.
  eapply straight_for_in with (block := hit_reads).
  - intros hit. straighten. unfold hit_reads. repeat eexists.
  - intros xs evs H. exists hits, xs, evs. split; [reflexivity | exact H].
Qed.

Lemma simplefacetresult_straight {W} (lib : Library W) (result : obj) :
  straight (Search.simplefacetresult lib result) (fun _ evs =>
    exists facets xs body,
      evs = returned (Method result "facets") [] facets :: yielded facets xs :: body /\
      each facet_reads xs body).
Proof.
  unfold Search.simplefacetresult, method, getattr.
  apply straight_call_then; intros facets.
  eapply straight_for_in with (block := facet_reads).
  - intros facet. straighten. unfold facet_reads. repeat eexists.
  - intros xs evs H. exists facets, xs, evs. split; [reflexivity | exact H].
Qed.

Definition is_runtime_call (ev : event) : bool :=
  match ev_target ev with Builtin _ => true | _ => false end.

Lemma closing_snippets_call_no_runtime {W} (lib : Library W) (result : obj) :
  always (audited (fun ev => negb (is_runtime_call ev))) (Search.simpleresult lib result) /\
  always (audited (fun ev => negb (is_runtime_call ev))) (Search.simplefacetresult lib result).
Proof. split; unfold_module; audit. Qed.

Lemma always_from {W A} (Inv : trace -> Prop) (m : @M W A) (s : @state W) evs :
  always Inv m -> snd (snd (m s)) = snd s ++ evs -> Inv evs.
Proof.
  intros H Ht. destruct s as [w t]. cbn [snd] in Ht.
  destruct (H w t) as (evs' & Ht' & Hi).
  rewrite Ht' in Ht. apply app_inv_head in Ht. subst evs'. exact Hi.
Qed.

(** X6: the two closing snippets only read.  Whatever the library does,
    neither of them prints, logs or calls the runtime in any other way,
    so what they read is dropped.  When no call raises, the calls of
    [simpleresult] are exactly [hits()] on the result, the iteration of
    the hits, and for each hit in turn its [id] and then its [score];
    those of [simplefacetresult] are [facets()] on the same result, the
    iteration of the facets, and for each facet its [name] and then its
    [total]. *)
Theorem closing_snippets_read_and_drop :
  forall {W} (lib : Library W) (result : obj) (s : @state W) (evs : trace),
    (snd (snd (Search.simpleresult lib result s)) = snd s ++ evs ->
     Forall (fun ev => is_runtime_call ev = false) evs /\
     (quiet evs ->
      exists hits xs body,
        evs = returned (Method result "hits") [] hits :: yielded hits xs :: body /\
        each hit_reads xs body)) /\
    (snd (snd (Search.simplefacetresult lib result s)) = snd s ++ evs ->
     Forall (fun ev => is_runtime_call ev = false) evs /\
     (quiet evs ->
      exists facets xs body,
        evs = returned (Method result "facets") [] facets :: yielded facets xs :: body /\
        each facet_reads xs body)).
Proof.
  intros W lib result s evs.
  destruct (closing_snippets_call_no_runtime lib result) as [H1 H2].
  split; intros Ht; split.
  - pose proof (always_from _ _ _ _ H1 Ht) as Ha.
    eapply Forall_impl; [|exact Ha]. cbn beta. intros a Hn.
    apply negb_true_iff in Hn. exact Hn.
  - intros Hq.
    destruct (straight_run _ _ _ _ (simpleresult_straight lib result) Ht Hq) as (_ & _ & H).
    exact H.
  - pose proof (always_from _ _ _ _ H2 Ht) as Ha.
    eapply Forall_impl; [|exact Ha]. cbn beta. intros a Hn.
    apply negb_true_iff in Hn. exact Hn.
  - intros Hq.
    destruct (straight_run _ _ _ _ (simplefacetresult_straight lib result) Ht Hq) as (_ & _ & H).
    exact H.
Qed.

Lemma closing_snippets_read_and_drop_witness :
  (exists hits xs body,
      snd (snd (Search.simpleresult fresh_lib 0 (start 1))) =
        returned (Method 0 "hits") [] hits :: yielded hits xs :: body /\
      each hit_reads xs body) /\
  (exists facets xs body,
      snd (snd (Search.simplefacetresult fresh_lib 0 (start 1))) =
        returned (Method 0 "facets") [] facets :: yielded facets xs :: body /\
      each facet_reads xs body).
Proof.
  split.
  - apply (proj1 (closing_snippets_read_and_drop fresh_lib 0 (start 1)
                    (snd (snd (Search.simpleresult fresh_lib 0 (start 1)))))).
    + reflexivity.
    + vm_compute. repeat constructor.
  - apply (proj2 (closing_snippets_read_and_drop fresh_lib 0 (start 1)
                    (snd (snd (Search.simplefacetresult fresh_lib 0 (start 1)))))).
    + reflexivity.
    + vm_compute. repeat constructor.
Defined.

(** ** The error list of the metadata

    The closing text (lines 341-344) notes that the metadata of a result
    may carry errors although the search call itself succeeded, and
    advises to look at them.  The module never does. *)

Definition asks_errors (c : callee) : bool :=
  match c with
  | Method _ name | GetAttr _ name => name =? "errors"
  | _ => false
  end.

Definition reads_errors (ev : event) : bool := asks_errors (ev_target ev).

Lemma module_never_reads_errors {W} (lib : Library W) :
  always (audited (fun ev => negb (reads_errors ev))) (Search.__call__ lib).
Proof. unfold_module. audit. Qed.

(** Two libraries that answer every call alike, except when asked for
    [errors]. *)
Definition agree_but_errors {W} (lib1 lib2 : Library W) : Prop :=
  (forall c args w, asks_errors c = false -> respond lib1 c args w = respond lib2 c args w) /\
  (forall it w, yield lib1 it w = yield lib2 it w).

Section Indifferent.
Context {W : Type} (lib1 lib2 : Library W).
Hypothesis Hagree : agree_but_errors lib1 lib2.

(** The two programs do the same from every state. *)
Definition same {A} (m1 m2 : @M W A) : Prop := forall s, m1 s = m2 s.

Lemma same_ret {A} (a : A) : same (@ret W A a) (ret a).
Proof. intros s. reflexivity. Qed.

Lemma same_call c args :
  asks_errors c = false -> same (call lib1 c args) (call lib2 c args).
Proof.
  intros Hc s. unfold call. rewrite (proj1 Hagree c args (fst s) Hc). reflexivity.
Qed.

Lemma same_iterate it : same (iterate lib1 it) (iterate lib2 it).
Proof. intros s. unfold iterate. rewrite (proj2 Hagree it (fst s)). reflexivity. Qed.

Lemma same_bind {A B} (m1 m2 : M A) (k1 k2 : A -> M B) :
  same m1 m2 -> (forall a, same (k1 a) (k2 a)) -> same (bind m1 k1) (bind m2 k2).
Proof.
  intros Hm Hk s. unfold bind. rewrite (Hm s).
  destruct (m2 s) as [[a|e] s']; [apply Hk | reflexivity].
Qed.

Lemma same_for_each xs (b1 b2 : obj -> M unit) :
  (forall x, same (b1 x) (b2 x)) -> same (for_each xs b1) (for_each xs b2).
Proof.
  intros Hb. induction xs as [|x xs IH]; cbn [for_each].
  - apply same_ret.
  - apply same_bind; [apply Hb | intros _; exact IH].
Qed.

Lemma same_for_in it (b1 b2 : obj -> M unit) :
  (forall x, same (b1 x) (b2 x)) -> same (for_in lib1 it b1) (for_in lib2 it b2).
Proof.
  intros Hb. unfold for_in. apply same_bind.
  - apply same_iterate.
  - intros xs. apply same_for_each. exact Hb.
Qed.

Lemma same_try {A} (body1 body2 handler1 handler2 : M A) cls :
  same body1 body2 -> same handler1 handler2 ->
  same (try_except body1 cls handler1) (try_except body2 cls handler2).
Proof.
  intros Hb Hh s. unfold try_except. rewrite (Hb s).
  destruct (body2 s) as [[a|e] s']; [reflexivity|].
  destruct (isinstance e cls); [apply Hh | reflexivity].
Qed.

Lemma module_same : same (Search.__call__ lib1) (Search.__call__ lib2).
Proof.
  unfold_module.
  repeat first
    [ apply same_ret
    | apply same_for_in; intros
    | apply same_try
    | apply same_call; reflexivity
    | apply same_bind; [|intros] ].
Qed.
End Indifferent.

(** X8: what the library answers when asked for [errors] makes no
    difference to the module.  Take two libraries that answer every call
    alike except a call or an attribute named [errors], on whatever
    object: from the same state both runs end the same way, with the same
    calls and the same answers, and leave the world in the same state.
    And no run, against any library, asks anything for [errors].  So a
    search that comes back with errors in its metadata, but without
    raising, goes through the module exactly as one without. *)
Theorem errors_make_no_difference :
  forall {W} (lib1 lib2 : Library W) (w : W),
    agree_but_errors lib1 lib2 ->
    Search.__call__ lib1 (start w) = Search.__call__ lib2 (start w) /\
    run lib1 w = run lib2 w /\
    (forall ev, In ev (snd (run lib1 w)) -> reads_errors ev = false).
Proof.
  intros W lib1 lib2 w Hagree.
  pose proof (module_same lib1 lib2 Hagree (start w)) as Hsame.
  split; [exact Hsame|]. split.
  - unfold run. rewrite Hsame. reflexivity.
  - intros ev Hin.
    pose proof (audited_run lib1 w _ (module_never_reads_errors lib1) ev Hin) as H.
    apply negb_true_iff in H. exact H.
Qed.

(** A library that answers as [fresh_lib] does, except that it refuses to
    be asked for [errors]. *)
Definition guarded_lib : Library nat :=
  {| respond := fun c args w =>
       if asks_errors c then (Raise type_error, w) else respond fresh_lib c args w;
     yield := yield fresh_lib |}.

Lemma errors_make_no_difference_witness :
  Search.__call__ fresh_lib (start 0) = Search.__call__ guarded_lib (start 0) /\
  run fresh_lib 0 = run guarded_lib 0 /\
  (forall ev, In ev (snd (run fresh_lib 0)) -> reads_errors ev = false).
Proof.
  apply (errors_make_no_difference fresh_lib guarded_lib 0).
  split.
  - intros c args w Hc. cbn [respond guarded_lib]. rewrite Hc. reflexivity.
  - intros it w. reflexivity.
Defined.
